(** * canvas-lms-downloader: the incremental mirror engine of [src/index.ts]

    A shallow embedding of the freshness gate [fIfNeeded], the sanitizer
    [santizeFilename], the Files deduplication and item loop of
    [downloadFiles], the announcement destination of
    [downloadAnnouncements], the option validation at module level and
    the orchestrator [run], with the properties the specification states
    about them.

    Conventions of the embedding.
    - A JavaScript string is the list of its UTF-16 code units ([list N]).
    - A [Date] is represented by its time value in milliseconds ([Z]); an
      invalid date (time value NaN) is outside the model.
    - The local filesystem is a finite map from absolute paths to files,
      together with the function that says which time it keeps when asked to
      store a time (its range and precision).
    - An [async] function is a state transformer over the [World] that also
      returns the list of observable events it produced and how its promise
      ended: a value, the reason of the rejection, or no settlement at all. *)

From Stdlib Require Import ZArith NArith List Lia Ascii String.
From stdpp Require Import base option list gmap pretty sorting.

Local Open Scope Z_scope.

(** ** JavaScript strings *)

Abbreviation jsstring := (list N).

Fixpoint js (s : string) : jsstring :=
  match s with
  | EmptyString => []
  | String a s' => N_of_ascii a :: js s'
  end.

(** ** The world: local filesystem and wall clock *)

Record File := mkFile { data : jsstring; atime : Z; mtime : Z }.

(** [stamp w t] is the time a file reports after the filesystem was asked
    to store the time [t]: the identity where [t] is within its range and
    precision, something else where it is not. *)
Record World := mkWorld { disk : gmap (list N) File; clock : Z; stamp : Z -> Z }.

Inductive Err :=
  | ENOENT (p : jsstring)          (* fs: no such file or directory *)
  | TypeError                      (* property access on undefined, iteration of undefined *)
  | Rejected (reason : jsstring).  (* a collaborator's promise was rejected *)

(** Why nothing after an [await] runs: the awaited promise never settles,
    or the process ends while it is pending (as the runtime does when a
    rejection is handled by nobody). *)
Inductive Stop :=
  | NeverSettles
  | ProcessExit (code : Z).

Inductive Res (A : Type) :=
  | Ok (a : A)
  | Throw (e : Err)
  | Stopped (s : Stop).
Arguments Ok {A} a.
Arguments Throw {A} e.
Arguments Stopped {A} s.

(** Observable events, in program order.  [EvProduce] is ghost: it records
    that the gate invoked the action it was given. *)
Inductive Event :=
  | EvSkip (p : jsstring)              (* console.info `[SKIP] p` *)
  | EvWrite (p : jsstring)             (* console.info `[WRITE] p` *)
  | EvProduce (p : jsstring)           (* the gate called [f] for [p] *)
  | EvUtimes (p : jsstring) (a m : Z)  (* fs.utimes(p, a, m) took effect *)
  | EvMkdirs (p : jsstring)            (* fs.mkdirs(p) / fs.mkdirp(p) *)
  | EvCourse (id : Z)                  (* console.info `> Downloading from ...` *)
  | EvNoName (id : Z)                  (* console.info "No course name, skipping." *)
  | EvConsoleError (e : Err).          (* console.error(e) *)

Definition is_produce (e : Event) : bool :=
  match e with EvProduce _ => true | _ => false end.

Definition is_disk_write (e : Event) : bool :=
  match e with EvProduce _ | EvUtimes _ _ _ | EvMkdirs _ => true | _ => false end.

(** ** Promises as a state-and-exception monad with an event log *)

Definition M (A : Type) : Type := World -> World * list Event * Res A.

(** A collaborator-supplied action (the [f] of [fIfNeeded], a byte transfer):
    any effect on the world, then fulfilment, rejection, or neither. *)
Definition Action : Type := World -> World * Res unit.

Global Instance M_ret : MRet M := fun A a w => (w, [], Ok a).

Global Instance M_bind : MBind M := fun A B k m w =>
  match m w with
  | (w1, t1, Ok a) =>
      match k a w1 with
      | (w2, t2, r) => (w2, t1 ++ t2, r)
      end
  | (w1, t1, Throw e) => (w1, t1, Throw e)
  | (w1, t1, Stopped s) => (w1, t1, Stopped s)
  end.

Definition emit (e : Event) : M unit := fun w => (w, [e], Ok tt).

Definition throw {A} (e : Err) : M A := fun w => (w, [], Throw e).

(** [p.catch(console.error)]: a rejection is logged and the resulting promise
    is fulfilled; a promise that does not settle is not helped by it. *)
Definition catch_console_error (m : M unit) : M unit := fun w =>
  match m w with
  | (w1, t1, Ok _) => (w1, t1, Ok tt)
  | (w1, t1, Throw e) => (w1, t1 ++ [EvConsoleError e], Ok tt)
  | (w1, t1, Stopped s) => (w1, t1, Stopped s)
  end.

Definition world_of {A} (o : World * list Event * Res A) : World := fst (fst o).
Definition trace_of {A} (o : World * list Event * Res A) : list Event := snd (fst o).
Definition result_of {A} (o : World * list Event * Res A) : Res A := snd o.

(** ** The part of [fs] the gate uses *)

Definition pathExists (p : jsstring) : M bool := fun w =>
  (w, [], Ok (bool_decide (is_Some (disk w !! p)))).

Definition stat (p : jsstring) : M File := fun w =>
  match disk w !! p with
  | Some f => (w, [], Ok f)
  | None => (w, [], Throw (ENOENT p))
  end.

(** [new Date()] *)
Definition now : M Z := fun w => (w, [], Ok (clock w)).

(** [fs.utimes(p, a, m)]: the file keeps the times the filesystem makes of
    [a] and [m]. *)
Definition utimes (p : jsstring) (a m : Z) : M unit := fun w =>
  match disk w !! p with
  | Some f =>
      (mkWorld (<[p := mkFile (data f) (stamp w a) (stamp w m)]> (disk w))
         (clock w) (stamp w),
       [EvUtimes p a m], Ok tt)
  | None => (w, [], Throw (ENOENT p))
  end.

(** Running a collaborator's action, recorded by the event [e]. *)
Definition perform (e : Event) (f : Action) : M unit := fun w =>
  match f w with
  | (w1, r) => (w1, [e], r)
  end.

(** Calling the action the gate was given. *)
Definition call (p : jsstring) (f : Action) : M unit := perform (EvProduce p) f.

(** Awaiting a value that does not come from the local world. *)
Definition await {A} (r : Res A) : M A := fun w => (w, [], r).

(** [for (const x of l) { await body(x) }] *)
Fixpoint for_each {A} (l : list A) (body : A -> M unit) : M unit :=
  match l with
  | [] => mret tt
  | x :: l' => body x;; for_each l' body
  end.

(** ** The freshness gate, [fIfNeeded] (index.ts 100-111) *)

Definition fIfNeeded (f : Action) (destPath : jsstring) (mtime_ : Z) : M unit :=
  ex ← pathExists destPath;
  same ← (if ex : bool
          then st ← stat destPath; mret (mtime_ =? mtime st)
          else mret false);
  if same : bool
  then emit (EvSkip destPath)
  else
    call destPath f;;
    emit (EvWrite destPath);;
    a ← now;
    utimes destPath a mtime_.

(** The skip predicate of the gate, as a function of the world. *)
Definition fresh (w : World) (destPath : jsstring) (mtime_ : Z) : bool :=
  match disk w !! destPath with
  | Some f => mtime_ =? mtime f
  | None => false
  end.

(** ** [santizeFilename] (index.ts 38-40) *)

(** The regular expression class [\s] on UTF-16 code units. *)
Definition is_space (c : N) : bool :=
  ((9 <=? c) && (c <=? 13) || (c =? 32) || (c =? 160) || (c =? 5760)
   || (8192 <=? c) && (c <=? 8202) || (c =? 8232) || (c =? 8233)
   || (c =? 8239) || (c =? 8287) || (c =? 12288) || (c =? 65279))%N.

Definition underscore : N := 95.
Definition slash : N := 47.

(** [s.replace(/\s/g, '_')] *)
Definition replace_space (s : jsstring) : jsstring :=
  map (fun c => if is_space c then underscore else c) s.

(** The characters the [filenamify] package never leaves in its output:
    the angle brackets, colon, double quote, slash, backslash, vertical bar,
    question mark and asterisk, and the control characters. *)
Definition is_reserved (c : N) : bool :=
  ((c =? 60) || (c =? 62) || (c =? 58) || (c =? 34) || (c =? 47) || (c =? 92)
   || (c =? 124) || (c =? 63) || (c =? 42) || (c <=? 31)
   || (128 <=? c) && (c <=? 159))%N.

(** A reference sanitizer on which the model can be run: the character
    replacement of [filenamify] with its default replacement ['!'].  The
    package's trimming, its treatment of reserved device names and its
    length limit are not part of it. *)
Definition filenamify_core (s : jsstring) : jsstring :=
  map (fun c => if is_reserved c then 33%N else c) s.

(** ** [path.resolve] on POSIX *)

Fixpoint split_go (sep : N) (s cur : jsstring) : list jsstring :=
  match s with
  | [] => [rev cur]
  | c :: s' =>
      if (c =? sep)%N then rev cur :: split_go sep s' []
      else split_go sep s' (c :: cur)
  end.

(** [s.split(sep)] for a one-character separator. *)
Definition split (sep : N) (s : jsstring) : list jsstring := split_go sep s [].

Definition is_absolute (p : jsstring) : bool :=
  match p with
  | c :: _ => (c =? slash)%N
  | [] => false
  end.

(** The right-to-left scan of [path.resolve]: arguments are prepended until an
    absolute one has been seen; empty arguments are ignored. *)
Fixpoint resolve_scan (args : list jsstring) : jsstring * bool :=
  match args with
  | [] => ([], false)
  | a :: rest =>
      match resolve_scan rest with
      | (r, true) => (r, true)
      | (r, false) =>
          match a with
          | [] => (r, false)
          | _ => (a ++ slash :: r, is_absolute a)
          end
      end
  end.

Definition dot : jsstring := [46%N].
Definition dotdot : jsstring := [46%N; 46%N].

(** Normalisation of an absolute path: the stack of segments, innermost
    first; empty and [.] segments vanish, [..] drops the innermost one. *)
Fixpoint normalize_go (segs : list jsstring) (stack : list jsstring) : list jsstring :=
  match segs with
  | [] => rev stack
  | s :: segs' =>
      if decide (s = [] \/ s = dot) then normalize_go segs' stack
      else if decide (s = dotdot) then normalize_go segs' (tail stack)
      else normalize_go segs' (s :: stack)
  end.

Fixpoint join_slash (segs : list jsstring) : jsstring :=
  match segs with
  | [] => []
  | [s] => s
  | s :: segs' => s ++ slash :: join_slash segs'
  end.


Section Path.
(** [process.cwd()], an absolute path. *)
Variable cwd : jsstring.

Definition path_resolve (args : list jsstring) : jsstring :=
  let scanned :=
    match resolve_scan args with
    | (r, true) => r
    | (r, false) => cwd ++ slash :: r
    end in
  slash :: join_slash (normalize_go (split slash scanned) []).
End Path.

(** ** Remote records (index.ts 44-72) *)

Record Course := mkCourse {
  c_id : Z;
  c_name : option jsstring;        (* [None]: the field is absent *)
  c_course_code : option jsstring
}.

Record FileRec := mkFileRec {
  folder_id : Z;
  filename : jsstring;
  url : jsstring;
  modified_at : Z                  (* time value of [new Date(f.modified_at)] *)
}.

Record Folder := mkFolder { fo_id : Z; full_name : jsstring }.

Record Announcement := mkAnnouncement {
  a_id : jsstring;
  a_title : jsstring;
  a_created_at : Z;
  a_message : jsstring
}.

Global Instance FileRec_eq_dec : EqDecision FileRec.
Proof. solve_decision. Defined.

(** ** The deduplication of [downloadFiles] (index.ts 136-138) *)

(** [files.sort((a, b) => time(b) - time(a))]: the sort of the engine is
    stable; an element goes before the first one that is not newer. *)
Fixpoint sort_insert (x : FileRec) (l : list FileRec) : list FileRec :=
  match l with
  | [] => [x]
  | y :: l' =>
      if modified_at y <=? modified_at x then x :: y :: l'
      else y :: sort_insert x l'
  end.

Fixpoint sort_desc (l : list FileRec) : list FileRec :=
  match l with
  | [] => []
  | x :: l' => sort_insert x (sort_desc l')
  end.

(** [`${f.folder_id} ${f.filename}`] *)
Definition fileKey (f : FileRec) : jsstring :=
  js (pretty (folder_id f)) ++ 32%N :: filename f.

(** [lodash.uniqBy]: the first element of each key survives, in order. *)
Fixpoint uniqBy_go {A} (key : A -> jsstring) (seen : list jsstring) (l : list A) : list A :=
  match l with
  | [] => []
  | x :: l' =>
      if decide (key x ∈ seen) then uniqBy_go key seen l'
      else x :: uniqBy_go key (key x :: seen) l'
  end.

Definition uniqBy {A} (key : A -> jsstring) (l : list A) : list A := uniqBy_go key [] l.

Definition uniqueFiles (files : list FileRec) : list FileRec :=
  uniqBy fileKey (sort_desc files).

(** ** Command-line options (index.ts 11-36) *)

Record Options := mkOptions {
  o_course : option jsstring;      (* [None]: the flag was not given *)
  o_all : option bool;
  o_dir : option jsstring;
  o_url : option jsstring;
  o_token : option jsstring
}.

(** Truthiness of a possibly absent string, and of a possibly absent boolean. *)
Definition truthy (v : option jsstring) : bool :=
  match v with
  | Some (_ :: _) => true
  | _ => false
  end.

Definition truthy_bool (v : option bool) : bool :=
  match v with
  | Some b => b
  | None => false
  end.

Inductive Complaint :=
  | NotBoth            (* "Specify either --course or --all, not both" *)
  | NeitherGiven       (* "Must specify either --course or --all" *)
  | MustSpecify (key : jsstring).

(** The calls of [commanderFail] that the module-level checks reach, in
    order, were [program.help()] to return. *)
Definition complaints (o : Options) : list Complaint :=
  (if truthy (o_course o) && truthy_bool (o_all o) then [NotBoth] else [])
  ++ (if negb (truthy (o_course o)) && negb (truthy_bool (o_all o)) then [NeitherGiven] else [])
  ++ (if negb (truthy (o_dir o)) then [MustSpecify (js "dir")] else [])
  ++ (if negb (truthy (o_url o)) then [MustSpecify (js "url")] else [])
  ++ (if negb (truthy (o_token o)) then [MustSpecify (js "token")] else []).

(** ** The downloaders and the orchestrator *)

Section Engine.
(** [process.cwd()] and the [filenamify] package. *)
Variable cwd : jsstring.
Variable filenamify : jsstring -> jsstring.

(** Collaborators: directory creation, the remote listings as [getJson]
    delivers them ([Ok None]: the request failed and was logged, the value
    is [undefined]), the byte transfer to a destination, [fs.writeFile]. *)
Variable mkdirs : jsstring -> Action.
Variable getCourses : Res (option (list Course)).
Variable getFolders : Z -> Res (option (list Folder)).
Variable getFiles : Z -> Res (option (list FileRec)).
Variable getAnnouncements : Z -> Res (option (list Announcement)).
Variable transfer : jsstring -> jsstring -> Action.
Variable writeFile : jsstring -> jsstring -> Action.

Definition santizeFilename (s : jsstring) : jsstring :=
  replace_space (filenamify s).

(** The directory of a Canvas folder (index.ts 142-143). *)
Definition folderPath (courseDir canvasFoldername : jsstring) : jsstring :=
  let santizedCanvasFoldername :=
    path_resolve cwd (courseDir :: map santizeFilename (split slash canvasFoldername)) in
  path_resolve cwd [courseDir; santizedCanvasFoldername].

(** The destination of a file record (index.ts 145). *)
Definition fileDest (courseDir canvasFoldername : jsstring) (file : FileRec) : jsstring :=
  path_resolve cwd [folderPath courseDir canvasFoldername; filename file].

(** The body of the loop of [downloadFiles] (index.ts 141-158). *)
Definition downloadFile (folders : list Folder) (courseDir : jsstring)
    (file : FileRec) : M unit :=
  match find (fun f => fo_id f =? folder_id file) folders with
  | None => throw TypeError
  | Some fo =>
      let folder := folderPath courseDir (full_name fo) in
      perform (EvMkdirs folder) (mkdirs folder);;
      let destPath := path_resolve cwd [folder; filename file] in
      fIfNeeded (transfer (url file) destPath) destPath (modified_at file)
  end.

(** [downloadFiles] (index.ts 126-160) *)
Definition downloadFiles (c : Course) (courseDir : jsstring) : M unit :=
  folders ← await (getFolders (c_id c));
  match folders with
  | None => mret tt
  | Some folders =>
      files ← await (getFiles (c_id c));
      match files with
      | None => mret tt
      | Some files =>
          for_each (uniqueFiles files) (downloadFile folders courseDir)
      end
  end.

(** The file name of an announcement (index.ts 263). *)
Definition announcementFilename (a : Announcement) : jsstring :=
  santizeFilename (a_title a ++ underscore :: a_id a) ++ js ".html".

(** [downloadAnnouncements] (index.ts 256-266) *)
Definition downloadAnnouncements (c : Course) (courseDir : jsstring) : M unit :=
  announcements ← await (getAnnouncements (c_id c));
  match announcements with
  | None => mret tt
  | Some announcements =>
      let announcementsDir := path_resolve cwd [courseDir; js "announcements"] in
      perform (EvMkdirs announcementsDir) (mkdirs announcementsDir);;
      for_each announcements (fun a =>
        let destPath := path_resolve cwd [announcementsDir; announcementFilename a] in
        fIfNeeded (writeFile destPath (a_message a)) destPath (a_created_at a))
  end.

(** The selection of [run] (index.ts 275): strict equality with the
    selector on the name or on the course code. *)
Definition coursesToProcess (courseName : option jsstring) (courses : list Course)
    : list Course :=
  if truthy courseName
  then filter (fun a => bool_decide (c_name a = courseName)
                        || bool_decide (c_course_code a = courseName)) courses
  else courses.

Section Run.
(** The five category downloaders, in the order [run] calls them.  What
    each does is left open, also whether its promise settles: the callbacks
    that [downloadAssignments] starts without awaiting them (index.ts
    210-235) run while later categories are awaited, and a rejection in one
    of them is handled by nobody, so that the process can end while any
    later category is pending ([Stopped (ProcessExit _)]). *)
Variables dAssignments dFiles dPages dAnnouncements dModules
  : Course -> jsstring -> M unit.

Definition courseDirOf (targetFolder : jsstring) (c : Course) : jsstring :=
  path_resolve cwd
    [targetFolder;
     santizeFilename (default [] (c_name c)) ++ underscore :: js (pretty (c_id c))].

(** The part of the loop body after the directory of the course exists
    (index.ts 295-299). *)
Definition categories (c : Course) (courseDir : jsstring) : M unit :=
  catch_console_error (dAssignments c courseDir);;
  catch_console_error (dFiles c courseDir);;
  catch_console_error (dPages c courseDir);;
  catch_console_error (dAnnouncements c courseDir);;
  catch_console_error (dModules c courseDir).

(** The body of the loop over the courses (index.ts 284-299). *)
Definition processCourse (targetFolder : jsstring) (c : Course) : M unit :=
  if negb (truthy (c_name c))
  then emit (EvNoName (c_id c))
  else
    emit (EvCourse (c_id c));;
    let courseDir := courseDirOf targetFolder c in
    perform (EvMkdirs courseDir) (mkdirs courseDir);;
    categories c courseDir.

(** [run] (index.ts 268-301).  An array is truthy, so the test of
    [coursesToProcess] at line 276 never fires. *)
Definition run_with (o : Options) : M unit :=
  let courseName := o_course o in
  let targetFolder := default [] (o_dir o) in
  courses ← await getCourses;
  match courses with
  | None => mret tt
  | Some courses =>
      perform (EvMkdirs targetFolder) (mkdirs targetFolder);;
      for_each (coursesToProcess courseName courses) (processCourse targetFolder)
  end.

End Run.
End Engine.

(** ** The Pages and Modules categories *)

Record Page := mkPage {
  p_url : jsstring;
  p_updated_at : Z                 (* time value of [new Date(page.updated_at)] *)
}.

Record Module := mkModule { m_name : jsstring; m_items_url : jsstring }.

Record ModuleItem := mkModuleItem { mi_url : option jsstring }.

(** What [getJson(item.url)] describes; the time value is that of
    [new Date(thing.modified_at)]. *)
Record Thing := mkThing {
  t_url : option jsstring;
  t_filename : option jsstring;
  t_modified_at : Z
}.

Section Categories.
Variable cwd : jsstring.
Variable filenamify : jsstring -> jsstring.
Variable mkdirs : jsstring -> Action.
Variable transfer : jsstring -> jsstring -> Action.
Variable writeFile : jsstring -> jsstring -> Action.

(** The listings of [getJson], and the request for the content of a page
    ([Throw]: the request was rejected). *)
Variable getPages : Z -> Res (option (list Page)).
Variable getPage : Z -> jsstring -> Res jsstring.
Variable getModules : Z -> Res (option (list Module)).
Variable getItems : jsstring -> Res (option (list ModuleItem)).
Variable getThing : jsstring -> Res (option Thing).

(** The destination of a page (index.ts 246). *)
Definition pageDest (pagesDir : jsstring) (page : Page) : jsstring :=
  path_resolve cwd [pagesDir; santizeFilename filenamify (p_url page) ++ js ".html"].

(** The action given to the gate for a page (index.ts 247-250): the request,
    then the write of its body. *)
Definition producePage (c : Course) (page : Page) (destPath : jsstring) : Action :=
  fun w =>
    match getPage (c_id c) (p_url page) with
    | Ok body => writeFile destPath body w
    | Throw e => (w, Throw e)
    | Stopped s => (w, Stopped s)
    end.

(** [downloadPages] (index.ts 240-255) *)
Definition downloadPages (c : Course) (courseDir : jsstring) : M unit :=
  pages ← await (getPages (c_id c));
  match pages with
  | None => mret tt
  | Some pages =>
      let pagesDir := path_resolve cwd [courseDir; js "pages"] in
      perform (EvMkdirs pagesDir) (mkdirs pagesDir);;
      for_each pages (fun page =>
        let destPath := pageDest pagesDir page in
        fIfNeeded (producePage c page destPath) destPath (p_updated_at page))
  end.

(** The directory of a module (index.ts 166-168): the resolved path as a
    whole goes through [replace(/\s/g, '_')] before it is resolved again. *)
Definition moduleFolder (courseDir : jsstring) (module : Module) : jsstring :=
  let canvasFoldername := js "modules/" ++ m_name module in
  let santizedCanvasFoldername :=
    replace_space
      (path_resolve cwd
         (courseDir :: map (santizeFilename filenamify) (split slash canvasFoldername))) in
  path_resolve cwd [courseDir; santizedCanvasFoldername].

(** The body of the loop over the items of a module (index.ts 174-195). *)
Definition downloadItem (folder : jsstring) (item : ModuleItem) : M unit :=
  if negb (truthy (mi_url item)) then mret tt
  else
    thing ← await (getThing (default [] (mi_url item)));
    match thing with
    | None => throw TypeError
    | Some thing =>
        if negb (truthy (t_url thing)) || negb (truthy (t_filename thing)) then mret tt
        else
          let destPath := path_resolve cwd [folder; default [] (t_filename thing)] in
          fIfNeeded (transfer (default [] (t_url thing)) destPath) destPath
            (t_modified_at thing)
    end.

(** The body of the loop over the modules (index.ts 166-196). *)
Definition downloadModule (courseDir : jsstring) (module : Module) : M unit :=
  let folder := moduleFolder courseDir module in
  perform (EvMkdirs folder) (mkdirs folder);;
  items ← await (getItems (m_items_url module));
  match items with
  | None => throw TypeError
  | Some items => for_each items (downloadItem folder)
  end.

(** [downloadModules] (index.ts 161-198): the listing is iterated without
    a test. *)
Definition downloadModules (c : Course) (courseDir : jsstring) : M unit :=
  modules ← await (getModules (c_id c));
  match modules with
  | None => throw TypeError
  | Some modules => for_each modules (downloadModule courseDir)
  end.
End Categories.

(** ** Concrete collaborators and inputs, for running the model *)

(** An empty disk on a filesystem that keeps every time as it is given,
    and one that keeps no time after its last second, 15032385535. *)
Definition w0 : World := mkWorld ∅ 1700000000000 (fun t => t).
Definition w_capped : World :=
  mkWorld ∅ 1700000000000 (fun t => Z.min t 15032385535000).

(** An action that is rejected without touching the disk. *)
Definition failing : Action := fun w => (w, Throw (Rejected (js "ENOSPC"))).


(** An action whose promise never settles. *)
Definition hanging : Action := fun w => (w, Stopped NeverSettles).

(** A successful write of [d] at [p]: the file gets the current time. *)
Definition write_now (p d : jsstring) : Action := fun w =>
  (mkWorld (<[p := mkFile d (clock w) (clock w)]> (disk w)) (clock w) (stamp w), Ok tt).

Definition mkdirs_ok : jsstring -> Action := fun _ w => (w, Ok tt).

(** A transport whose write stream reports an error for the locator [bad],
    and one on which the transfer of [bad] never settles. *)
Definition transfer_ex (u dest : jsstring) : Action :=
  if decide (u = js "bad") then failing else write_now dest u.

(** The destinations for which the gate called its action, in order. *)
Definition produced (t : list Event) : list jsstring :=
  omap (fun e => match e with EvProduce p => Some p | _ => None end) t.

Definition count_produce (t : list Event) : nat := length (List.filter is_produce t).
Definition count_writes (t : list Event) : nat := length (List.filter is_disk_write t).

(** The destination key of a file record, as the specification names it. *)
Definition destinationKey (f : FileRec) : Z * jsstring := (folder_id f, filename f).

Definition no_space (s : string) : Prop := 32%N ∉ js s.

(** Newest first. *)
Definition newer_first (a b : FileRec) : Prop := modified_at b <= modified_at a.

(** The two colliding records of the specification's scenario. *)
Definition syllabus_jan : FileRec :=
  mkFileRec 7 (js "syllabus.pdf") (js "https://canvas/files/1") 1672531200000.
Definition syllabus_jun : FileRec :=
  mkFileRec 7 (js "syllabus.pdf") (js "https://canvas/files/2") 1685577600000.


(** The reference sanitizer followed by the length limit of the package,
    100 code units, and a title of 130 letters. *)
Definition filenamify_cut (s : jsstring) : jsstring := take 100 (filenamify_core s).
Definition long_title : jsstring := repeat 65%N 130.

(** A course with one folder and two files; the locator of the newer one
    is the one the stand-in transports fail on. *)
Definition course_x : Course := mkCourse 42 (Some (js "CourseX")) (Some (js "CX-101")).
Definition folders_x : list Folder := [mkFolder 7 (js "Unit 1/Readings")].
Definition file_bad : FileRec := mkFileRec 7 (js "a.pdf") (js "bad") 1685577600000.
Definition file_good : FileRec := mkFileRec 7 (js "b.pdf") (js "good") 1672531200000.
Definition dir_x : jsstring := js "/out/CourseX_42".

(** A promise that settles: it is fulfilled or rejected. *)
Definition settles {A} (r : Res A) : Prop :=
  match r with
  | Stopped _ => False
  | _ => True
  end.

(** A category downloader whose promise settles, whatever it is called on. *)
Definition settling (d : Course -> jsstring -> M unit) : Prop :=
  forall c dir w, settles (result_of (d c dir w)).

(** Stand-ins for the category downloaders: one that creates its directory
    and is fulfilled, one that is rejected at once (as [downloadModules] is
    when its listing is [undefined]), and the Files category over a
    listing that failed. *)
Definition category_mark (name : jsstring) : Course -> jsstring -> M unit :=
  fun _ dir => perform (EvMkdirs (dir ++ slash :: name)) (mkdirs_ok (dir ++ slash :: name)).
Definition category_rejected : Course -> jsstring -> M unit :=
  fun _ _ => throw TypeError.
Definition files_unlisted : Course -> jsstring -> M unit :=
  downloadFiles (js "/") filenamify_core mkdirs_ok (fun _ => Ok None)
    (fun _ => Ok (Some [file_good])) transfer_ex.


Definition course_nameless : Course := mkCourse 43 None (Some (js "CX-101")).
Definition course_y : Course := mkCourse 44 (Some (js "CourseXY")) (Some (js "cx-101")).

(** An action that keeps the promise the gate relies on: it is fulfilled,
    leaves a file at [p], no other file is touched, and the filesystem is
    the one it was. *)
Definition writes_only (act : Action) (p : jsstring) : Prop :=
  forall w, exists w1 fl,
    act w = (w1, Ok tt) /\ disk w1 !! p = Some fl /\
    (forall q, q <> p -> disk w1 !! q = disk w !! q) /\
    stamp w1 = stamp w.

(** A directory creation that is fulfilled and touches no file. *)
Definition keeps_files (act : Action) : Prop :=
  forall w, exists w1, act w = (w1, Ok tt) /\ disk w1 = disk w /\ stamp w1 = stamp w.

(** A path segment that [path.resolve] keeps as it is. *)
Definition plain_segment (s : jsstring) : Prop :=
  (slash ∉ s) /\ s <> [] /\ s <> dot /\ s <> dotdot.

(** Two announcements with the same title, and two pages. *)
Definition ann_1 : Announcement := mkAnnouncement (js "101") (js "Week 1") 1000 (js "first").
Definition ann_2 : Announcement := mkAnnouncement (js "102") (js "Week 1") 2000 (js "second").
Definition page_1 : Page := mkPage (js "syllabus") 3000.
Definition page_2 : Page := mkPage (js "office hours") 4000.

(** A loop body that brings the destination [p] up to date on a filesystem
    that keeps the time [t]: it is fulfilled, leaves [p] with the time [t],
    no other path changed and the filesystem as it was, and when [p] already
    has the time [t] it calls no action and changes no file. *)
Definition brings_up_to_date (body : M unit) (p : jsstring) (t : Z) : Prop :=
  forall w,
    stamp w t = t ->
    result_of (body w) = Ok tt /\
    fresh (world_of (body w)) p t = true /\
    (forall q, q <> p -> disk (world_of (body w)) !! q = disk w !! q) /\
    stamp (world_of (body w)) = stamp w /\
    (fresh w p t = true ->
     count_produce (trace_of (body w)) = 0%nat /\ disk (world_of (body w)) = disk w).

(** The destination [downloadFile] computes for a record, when its folder
    is listed. *)
Definition fileDestIn (cwd : jsstring) (filenamify : jsstring -> jsstring)
    (folders : list Folder) (courseDir : jsstring) (file : FileRec) : jsstring :=
  match find (fun f => fo_id f =? folder_id file) folders with
  | Some fo => fileDest cwd filenamify courseDir (full_name fo) file
  | None => []
  end.

(** A directory creation that is refused for one path. *)
Definition mkdirs_deny (denied : jsstring) : jsstring -> Action :=
  fun p w => if decide (p = denied) then (w, Throw (Rejected (js "EACCES"))) else (w, Ok tt).

(** A category downloader that logs no course banner. *)
Definition no_banner (d : Course -> jsstring -> M unit) : Prop :=
  forall c dir w id, EvCourse id ∉ trace_of (d c dir w).

Definition options_cx : Options :=
  mkOptions (Some (js "CX-101")) None (Some (js "/out")) (Some (js "https://canvas/api/v1"))
    (Some (js "token")).

Definition options_blank : Options :=
  mkOptions (Some []) (Some true) (Some (js "/out")) (Some (js "https://canvas/api/v1"))
    (Some (js "token")).

Definition options_all : Options :=
  mkOptions None (Some true) (Some (js "/out")) (Some (js "https://canvas/api/v1"))
    (Some (js "token")).

(** * Properties *)

(** ** The freshness gate *)

Section Gate.
Variables (f : Action) (destPath : jsstring) (mtime_ : Z).

Lemma gate_skip (w : World) :
  fresh w destPath mtime_ = true ->
  fIfNeeded f destPath mtime_ w = (w, [EvSkip destPath], Ok tt).
Proof.
  unfold fresh, fIfNeeded, pathExists, stat, mbind, M_bind, mret, M_ret, emit.
  destruct (disk w !! destPath) as [fl|] eqn:E; [|discriminate].
  intros H. rewrite bool_decide_eq_true_2 by eauto.
  rewrite E. simpl. rewrite H. reflexivity.
Qed.

(** What the gate does when it does not skip: one call of [f], and, when
    [f] is fulfilled, the log line and [fs.utimes] on the state [f] left. *)
Lemma gate_fetch (w : World) :
  fresh w destPath mtime_ = false ->
  fIfNeeded f destPath mtime_ w =
    match f w with
    | (w1, Throw e) => (w1, [EvProduce destPath], Throw e)
    | (w1, Stopped s) => (w1, [EvProduce destPath], Stopped s)
    | (w1, Ok _) =>
        match disk w1 !! destPath with
        | Some fl =>
            (mkWorld
               (<[destPath := mkFile (data fl) (stamp w1 (clock w1)) (stamp w1 mtime_)]>
                  (disk w1))
               (clock w1) (stamp w1),
             [EvProduce destPath; EvWrite destPath; EvUtimes destPath (clock w1) mtime_],
             Ok tt)
        | None => (w1, [EvProduce destPath; EvWrite destPath], Throw (ENOENT destPath))
        end
    end.
Proof.
  unfold fresh, fIfNeeded, pathExists, stat, mbind, M_bind, mret, M_ret, emit,
    call, perform, now, utimes.
  destruct (disk w !! destPath) as [fl|] eqn:E.
  - intros H. rewrite bool_decide_eq_true_2 by eauto.
    rewrite E. simpl. rewrite H.
    destruct (f w) as [w1 [[]|e|s]]; simpl; [|reflexivity|reflexivity].
    destruct (disk w1 !! destPath); reflexivity.
  - intros _. rewrite bool_decide_eq_false_2 by (intros [? ?]; discriminate).
    simpl.
    destruct (f w) as [w1 [[]|e|s]]; simpl; [|reflexivity|reflexivity].
    destruct (disk w1 !! destPath); reflexivity.
Qed.

(** A fulfilled gate leaves the destination fresh, when the filesystem kept
    the time it was given. *)
Lemma gate_ok_fresh (w : World) :
  (fresh w destPath mtime_ = false -> stamp (fst (f w)) mtime_ = mtime_) ->
  result_of (fIfNeeded f destPath mtime_ w) = Ok tt ->
  fresh (world_of (fIfNeeded f destPath mtime_ w)) destPath mtime_ = true.
Proof.
  intros Hs. destruct (fresh w destPath mtime_) eqn:F.
  - rewrite (gate_skip w F). simpl. intros _. exact F.
  - rewrite (gate_fetch w F). specialize (Hs eq_refl).
    destruct (f w) as [w1 [[]|e|s]]; [|discriminate|discriminate].
    destruct (disk w1 !! destPath); [|discriminate].
    intros _. unfold fresh, world_of. simpl in *.
    rewrite lookup_insert_eq. simpl. rewrite Hs. apply Z.eqb_refl.
Qed.

Lemma gate_count_produce (w : World) :
  (count_produce (trace_of (fIfNeeded f destPath mtime_ w)) <= 1)%nat.
Proof.
  destruct (fresh w destPath mtime_) eqn:F.
  - rewrite (gate_skip w F). simpl. unfold count_produce. simpl. lia.
  - rewrite (gate_fetch w F).
    destruct (f w) as [w1 [[]|e|s]]; [|unfold count_produce; simpl; lia..].
    destruct (disk w1 !! destPath); unfold count_produce; simpl; lia.
Qed.
End Gate.

(** C1 (as amended).  When the destination exists with exactly the desired
    modification time the gate only logs the skip: the action is not called
    and the world is unchanged.  When an invocation of the gate is fulfilled
    and, if it fetched, the filesystem kept the desired time as it was
    given, the next invocation for the same destination and time, whatever
    action it is given, is such a skip, so that the action is called at most
    once across the two and the second performs no write. *)
Theorem gate_idempotence (f g : Action) (destPath : jsstring) (mtime_ : Z) (w : World) :
  (fresh w destPath mtime_ = true ->
   fIfNeeded f destPath mtime_ w = (w, [EvSkip destPath], Ok tt)) /\
  (result_of (fIfNeeded f destPath mtime_ w) = Ok tt ->
   (fresh w destPath mtime_ = false -> stamp (fst (f w)) mtime_ = mtime_) ->
   let o1 := fIfNeeded f destPath mtime_ w in
   let o2 := fIfNeeded g destPath mtime_ (world_of o1) in
   o2 = (world_of o1, [EvSkip destPath], Ok tt) /\
   (count_produce (trace_of o1 ++ trace_of o2) <= 1)%nat /\
   count_writes (trace_of o2) = 0%nat).
Proof.
  split; [apply gate_skip|].
  intros H Hs o1 o2.
  assert (E : o2 = (world_of o1, [EvSkip destPath], Ok tt)).
  { apply gate_skip, gate_ok_fresh; assumption. }
  split; [exact E|]. rewrite E. simpl. split; [|reflexivity].
  unfold count_produce. rewrite List.filter_app, length_app. simpl.
  pose proof (gate_count_produce f destPath mtime_ w) as C.
  unfold count_produce in C. fold o1 in C. lia.
Qed.

Lemma gate_idempotence_witness :
  let p := js "/out/a.html" in
  let w1 := fst (write_now p (js "x") w0) in
  fIfNeeded failing p 1700000000000 w1 = (w1, [EvSkip p], Ok tt) /\
  let o1 := fIfNeeded (write_now p (js "x")) p 5 w0 in
  let o2 := fIfNeeded failing p 5 (world_of o1) in
  o2 = (world_of o1, [EvSkip p], Ok tt) /\
  (count_produce (trace_of o1 ++ trace_of o2) <= 1)%nat /\
  count_writes (trace_of o2) = 0%nat.
Proof.
  intros p w1. split.
  - apply (proj1 (gate_idempotence failing failing p 1700000000000 w1)).
    vm_compute. reflexivity.
  - apply (proj2 (gate_idempotence (write_now p (js "x")) failing p 5 w0)).
    + vm_compute. reflexivity.
    + intros _. reflexivity.
Defined.

(** C1 as stated fails.  When the action is rejected nothing is stamped, and
    two invocations in succession call the action twice.  When the desired
    time is beyond what the filesystem keeps, the first invocation is
    fulfilled, the file reports another time, and the second invocation
    calls the action again. *)
Lemma gate_twice_not_skipped :
  let p := js "/out/a.html" in
  (let o1 := fIfNeeded failing p 5 w0 in
   let o2 := fIfNeeded failing p 5 (world_of o1) in
   ~ (count_produce (trace_of o1 ++ trace_of o2) <= 1)%nat) /\
  (let o1 := fIfNeeded (write_now p (js "x")) p 253402300799999 w_capped in
   let o2 := fIfNeeded (write_now p (js "x")) p 253402300799999 (world_of o1) in
   result_of o1 = Ok tt /\
   ~ (count_produce (trace_of o1 ++ trace_of o2) <= 1)%nat).
Proof. vm_compute. repeat split; lia. Qed.

(** C2 (as amended).  When the gate does not skip, the action is fulfilled,
    leaving a file at the destination, and the filesystem keeps the desired
    time as it is given, the gate is fulfilled and that file has exactly the
    desired modification time; its access time is what the filesystem makes
    of the time of the clock when the action returned; its content and every
    other file are as the action left them. *)
Theorem gate_timestamp_fidelity (f : Action) (destPath : jsstring) (mtime_ : Z)
    (w w1 : World) (fl : File) :
  fresh w destPath mtime_ = false ->
  f w = (w1, Ok tt) ->
  disk w1 !! destPath = Some fl ->
  stamp w1 mtime_ = mtime_ ->
  let o := fIfNeeded f destPath mtime_ w in
  result_of o = Ok tt /\
  disk (world_of o) !! destPath
    = Some (mkFile (data fl) (stamp w1 (clock w1)) mtime_) /\
  (forall q, q <> destPath -> disk (world_of o) !! q = disk w1 !! q) /\
  trace_of o = [EvProduce destPath; EvWrite destPath; EvUtimes destPath (clock w1) mtime_].
Proof.
  intros F Hf Hd Hs o. unfold o. rewrite (gate_fetch f destPath mtime_ w F), Hf, Hd.
  unfold result_of, world_of, trace_of. simpl.
  repeat split.
  - rewrite lookup_insert_eq, Hs. reflexivity.
  - intros q Hq. apply lookup_insert_ne. congruence.
Qed.

Lemma gate_timestamp_fidelity_witness :
  let p := js "/out/a.html" in
  let o := fIfNeeded (write_now p (js "x")) p 0 w0 in
  result_of o = Ok tt /\
  disk (world_of o) !! p = Some (mkFile (js "x") 1700000000000 0) /\
  (forall q, q <> p -> disk (world_of o) !! q = disk (fst (write_now p (js "x") w0)) !! q) /\
  trace_of o = [EvProduce p; EvWrite p; EvUtimes p 1700000000000 0].
Proof.
  intros p.
  apply (gate_timestamp_fidelity (write_now p (js "x")) p 0 w0
           (fst (write_now p (js "x") w0)) (mkFile (js "x") 1700000000000 1700000000000)).
  - vm_compute. reflexivity.
  - reflexivity.
  - vm_compute. reflexivity.
  - reflexivity.
Defined.

(** C2 as stated fails for a far-future time: the gate hands the desired
    time to [fs.utimes] and is fulfilled, but the file then reports the last
    time the filesystem keeps. *)
Lemma gate_timestamp_beyond_range :
  let p := js "/out/a.html" in
  let o := fIfNeeded (write_now p (js "x")) p 253402300799999 w_capped in
  result_of o = Ok tt /\
  trace_of o = [EvProduce p; EvWrite p; EvUtimes p 1700000000000 253402300799999] /\
  mtime <$> (disk (world_of o) !! p) = Some 15032385535000 /\
  15032385535000 <> 253402300799999.
Proof. vm_compute. repeat split. discriminate. Qed.





(** ** The key of [lodash.uniqBy] determines folder and file name *)

Lemma js_inj (a b : string) : js a = js b -> a = b.
Proof.
  revert b. induction a as [|x a IH]; intros [|y b]; simpl; try discriminate; auto.
  intros H. injection H as Hx Hr. f_equal; [|auto].
  rewrite <- (ascii_N_embedding x), <- (ascii_N_embedding y). congruence.
Qed.

Lemma pretty_N_char_no_space (x : N) : N_of_ascii (pretty_N_char x) <> 32%N.
Proof.
  unfold pretty_N_char. repeat case_match; vm_compute; discriminate.
Qed.

Lemma pretty_N_go_no_space (x : N) (s : string) :
  no_space s -> no_space (pretty_N_go x s).
Proof.
  revert s. induction (N.lt_wf_0 x) as [x _ IH]. intros s Hs.
  destruct (decide (x = 0%N)) as [->|Hx].
  - rewrite pretty_N_go_0. exact Hs.
  - rewrite pretty_N_go_step by lia. apply IH.
    + apply N.div_lt; lia.
    + unfold no_space. simpl. intros [E|E]%elem_of_cons; [|exact (Hs E)].
      symmetry in E. exact (pretty_N_char_no_space _ E).
Qed.

Lemma pretty_N_no_space (x : N) : no_space (pretty x).
Proof.
  unfold pretty, pretty_N. destruct (decide (x = 0%N)).
  - unfold no_space. simpl. intros [E|E]%elem_of_cons; [discriminate|].
    inversion E.
  - apply pretty_N_go_no_space. unfold no_space. simpl. intros E. inversion E.
Qed.

Lemma pretty_Z_no_space (z : Z) : no_space (pretty z).
Proof.
  destruct z as [|p|p].
  - unfold no_space. simpl. intros [E|E]%elem_of_cons; [discriminate|]. inversion E.
  - apply (pretty_N_no_space (Npos p)).
  - unfold no_space. change (pretty (Z.neg p)) with (String "-" (pretty (Npos p))).
    simpl. intros [E|E]%elem_of_cons; [discriminate|].
    exact (pretty_N_no_space (Npos p) E).
Qed.

Lemma fileKey_inj (a b : FileRec) :
  fileKey a = fileKey b <-> destinationKey a = destinationKey b.
Proof.
  unfold fileKey, destinationKey. split.
  - intros H.
    apply not_elem_of_app_cons_inv_l in H as (H1 & _ & H2);
      try apply pretty_Z_no_space.
    apply js_inj in H1. apply (inj pretty) in H1. congruence.
  - intros H. injection H as -> ->. reflexivity.
Qed.

(** ** The deduplication *)

Lemma uniqBy_go_filter {A} (key : A -> jsstring) (k : jsstring) (l : list A) :
  forall seen,
    filter (fun x => key x = k) (uniqBy_go key seen l) =
    if decide (k ∈ seen) then [] else take 1 (filter (fun x => key x = k) l).
Proof.
  induction l as [|x l IH]; intros seen; simpl.
  - destruct (decide (k ∈ seen)); reflexivity.
  - destruct (decide (key x ∈ seen)) as [Hs|Hs].
    + rewrite IH. destruct (decide (k ∈ seen)) as [|Hk]; [reflexivity|].
      rewrite (filter_cons_False (fun y => key y = k)); [reflexivity|].
      intros E. apply Hk. rewrite <- E. exact Hs.
    + destruct (decide (key x = k)) as [E|E].
      * rewrite !(filter_cons_True (fun y => key y = k)) by exact E.
        rewrite IH. rewrite decide_True by (rewrite E; apply list_elem_of_here).
        rewrite decide_False by (rewrite <- E; exact Hs). reflexivity.
      * rewrite !(filter_cons_False (fun y => key y = k)) by exact E.
        rewrite IH.
        destruct (decide (k ∈ seen)) as [Hk|Hk].
        -- rewrite decide_True by (apply list_elem_of_further; exact Hk). reflexivity.
        -- rewrite decide_False; [reflexivity|].
           intros [E'|E']%elem_of_cons; [apply E; symmetry; exact E'|exact (Hk E')].
Qed.

Lemma sort_insert_perm (x : FileRec) (l : list FileRec) : sort_insert x l ≡ₚ x :: l.
Proof.
  induction l as [|y l IH]; simpl; [reflexivity|].
  destruct (modified_at y <=? modified_at x); [reflexivity|].
  rewrite IH. apply Permutation_swap.
Qed.

Lemma sort_desc_perm (l : list FileRec) : sort_desc l ≡ₚ l.
Proof.
  induction l as [|x l IH]; simpl; [reflexivity|].
  rewrite sort_insert_perm, IH. reflexivity.
Qed.

Lemma sort_insert_sorted (x : FileRec) (l : list FileRec) :
  StronglySorted newer_first l -> StronglySorted newer_first (sort_insert x l).
Proof.
  induction 1 as [|y l Hl IH Hy]; simpl.
  - repeat constructor.
  - destruct (modified_at y <=? modified_at x) eqn:E.
    + apply Z.leb_le in E. constructor; [constructor; assumption|].
      constructor; [exact E|].
      eapply Forall_impl; [exact Hy|]. unfold newer_first. intros z Hz. lia.
    + apply Z.leb_gt in E. constructor; [exact IH|].
      rewrite sort_insert_perm. constructor; [unfold newer_first; lia|exact Hy].
Qed.

Lemma sort_desc_sorted (l : list FileRec) : StronglySorted newer_first (sort_desc l).
Proof.
  induction l as [|x l IH]; simpl; [constructor|].
  apply sort_insert_sorted, IH.
Qed.

(** In a list sorted newest first, the first element that satisfies a
    predicate is at least as new as every element that satisfies it. *)
Lemma sorted_filter_head (P : FileRec -> Prop) `{forall x, Decision (P x)}
    (l : list FileRec) :
  StronglySorted newer_first l ->
  forall r rest, filter P l = r :: rest ->
  forall r', r' ∈ filter P l -> modified_at r' <= modified_at r.
Proof.
  induction 1 as [|a l Hl IH Ha]; intros r rest E r' Hr'.
  - discriminate.
  - destruct (decide (P a)) as [Pa|Pa].
    + rewrite filter_cons_True in E, Hr' by exact Pa.
      injection E as <- _.
      apply elem_of_cons in Hr' as [->|Hr']; [lia|].
      apply list_elem_of_filter in Hr' as [_ Hr'].
      rewrite Forall_forall in Ha. exact (Ha r' Hr').
    + rewrite filter_cons_False in E, Hr' by exact Pa.
      eapply IH; eassumption.
Qed.

(** C3.  For every list of file records and every destination key that at
    least one record has, the deduplicated list contains exactly one record
    with that key; it is one of the input records with that key and no input
    record with that key has a later modification time.  (Distinctness of
    the time stamps is not needed.) *)
Theorem dedupe_keeps_newest (files : list FileRec) (k : Z * jsstring) :
  filter (fun f => destinationKey f = k) files <> [] ->
  exists r,
    filter (fun f => destinationKey f = k) (uniqueFiles files) = [r] /\
    r ∈ filter (fun f => destinationKey f = k) files /\
    forall r', r' ∈ filter (fun f => destinationKey f = k) files ->
               modified_at r' <= modified_at r.
Proof.
  intros Hne.
  destruct (filter (fun f => destinationKey f = k) files) as [|r0 g] eqn:Eg;
    [congruence|]. clear Hne.
  assert (H0 : r0 ∈ filter (fun f => destinationKey f = k) files)
    by (rewrite Eg; apply list_elem_of_here).
  apply list_elem_of_filter in H0 as [K0 _].
  assert (Ext : forall l : list FileRec,
    filter (fun f => destinationKey f = k) l = filter (fun f => fileKey f = fileKey r0) l).
  { intros l. apply list_filter_iff. intros f. rewrite fileKey_inj, K0. reflexivity. }
  rewrite <- Eg. rewrite !Ext. unfold uniqueFiles, uniqBy.
  rewrite uniqBy_go_filter. rewrite decide_False by (intros E; inversion E).
  assert (Hp : filter (fun f => fileKey f = fileKey r0) (sort_desc files)
               ≡ₚ filter (fun f => fileKey f = fileKey r0) files).
  { apply filter_Permutation, sort_desc_perm. }
  destruct (filter (fun f => fileKey f = fileKey r0) (sort_desc files)) as [|r rest] eqn:Es.
  - rewrite <- Ext, Eg in Hp. apply Permutation_nil_cons in Hp. contradiction.
  - exists r. split; [reflexivity|]. split.
    + rewrite <- Hp. apply list_elem_of_here.
    + intros r' Hr'. rewrite <- Hp in Hr'. rewrite <- Es in Hr'.
      eapply (sorted_filter_head _ _ (sort_desc_sorted files)); eassumption.
Qed.

Lemma dedupe_keeps_newest_witness :
  exists r,
    filter (fun f => destinationKey f = (7, js "syllabus.pdf"))
      (uniqueFiles [syllabus_jan; syllabus_jun]) = [r] /\
    r ∈ filter (fun f => destinationKey f = (7, js "syllabus.pdf"))
          [syllabus_jan; syllabus_jun] /\
    forall r', r' ∈ filter (fun f => destinationKey f = (7, js "syllabus.pdf"))
                      [syllabus_jan; syllabus_jun] ->
               modified_at r' <= modified_at r.
Proof.
  apply (dedupe_keeps_newest [syllabus_jan; syllabus_jun] (7, js "syllabus.pdf")).
  vm_compute. discriminate.
Defined.

Example dedupe_scenario : uniqueFiles [syllabus_jan; syllabus_jun] = [syllabus_jun].
Proof. vm_compute. reflexivity. Qed.

(** ** Where the characters of a resolved path come from *)

Lemma elem_of_rev {A} (x : A) (l : list A) : x ∈ rev l -> x ∈ l.
Proof. rewrite !list_elem_of_In. intros H. apply in_rev. exact H. Qed.

Lemma split_go_chars (sep : N) (s : jsstring) :
  forall cur seg c, seg ∈ split_go sep s cur -> c ∈ seg -> c ∈ cur \/ c ∈ s.
Proof.
  induction s as [|x s IH]; intros cur seg c Hseg Hc; simpl in Hseg.
  - apply list_elem_of_singleton in Hseg. subst seg.
    left. apply elem_of_rev. exact Hc.
  - destruct (x =? sep)%N.
    + apply elem_of_cons in Hseg as [->|Hseg].
      * left. apply elem_of_rev. exact Hc.
      * destruct (IH [] seg c Hseg Hc) as [H|H]; [inversion H|].
        right. apply list_elem_of_further. exact H.
    + destruct (IH (x :: cur) seg c Hseg Hc) as [H|H].
      * apply elem_of_cons in H as [->|H]; [right; apply list_elem_of_here|left; exact H].
      * right. apply list_elem_of_further. exact H.
Qed.

Lemma split_chars (sep : N) (s seg : jsstring) (c : N) :
  seg ∈ split sep s -> c ∈ seg -> c ∈ s.
Proof.
  intros Hseg Hc. destruct (split_go_chars sep s [] seg c Hseg Hc) as [H|H];
    [inversion H|exact H].
Qed.

Lemma resolve_scan_chars (args : list jsstring) (c : N) :
  c ∈ fst (resolve_scan args) -> c = slash \/ exists a, a ∈ args /\ c ∈ a.
Proof.
  induction args as [|a args IH]; simpl; [intros H; inversion H|].
  destruct (resolve_scan args) as [r [|]]; simpl in *.
  - intros H. destruct (IH H) as [E|(b & Hb & Hc)]; [left; exact E|].
    right. exists b. split; [apply list_elem_of_further; exact Hb|exact Hc].
  - assert (Hr : c ∈ r -> c = slash \/ exists a0, a0 ∈ a :: args /\ c ∈ a0).
    { intros H. destruct (IH H) as [E|(b & Hb & Hc)]; [left; exact E|].
      right. exists b. split; [apply list_elem_of_further; exact Hb|exact Hc]. }
    destruct a as [|x a]; simpl; [exact Hr|].
    intros H. change (x :: a ++ slash :: r) with ((x :: a) ++ slash :: r) in H.
    apply elem_of_app in H as [H|H].
    + right. exists (x :: a). split; [apply list_elem_of_here|exact H].
    + apply elem_of_cons in H as [->|H]; [left; reflexivity|exact (Hr H)].
Qed.

Lemma normalize_go_segs (segs : list jsstring) :
  forall stack s, s ∈ normalize_go segs stack -> s ∈ segs \/ s ∈ stack.
Proof.
  induction segs as [|x segs IH]; intros stack s H; simpl in H.
  - right. apply elem_of_rev. exact H.
  - destruct (decide (x = [] \/ x = dot)).
    + destruct (IH _ _ H) as [H'|H']; [left; apply list_elem_of_further; exact H'|right; exact H'].
    + destruct (decide (x = dotdot)).
      * destruct (IH _ _ H) as [H'|H']; [left; apply list_elem_of_further; exact H'|].
        right. destruct stack; [exact H'|apply list_elem_of_further; exact H'].
      * destruct (IH _ _ H) as [H'|H']; [left; apply list_elem_of_further; exact H'|].
        apply elem_of_cons in H' as [->|H']; [left; apply list_elem_of_here|right; exact H'].
Qed.

Lemma join_slash_chars (segs : list jsstring) (c : N) :
  c ∈ join_slash segs -> c = slash \/ exists s, s ∈ segs /\ c ∈ s.
Proof.
  induction segs as [|s segs IH]; [intros H; inversion H|].
  assert (Hs : c ∈ s -> c = slash \/ exists s0, s0 ∈ s :: segs /\ c ∈ s0).
  { intros H. right. exists s. split; [apply list_elem_of_here|exact H]. }
  destruct segs as [|s' segs]; [exact Hs|].
  change (join_slash (s :: s' :: segs)) with (s ++ slash :: join_slash (s' :: segs)).
  intros H. apply elem_of_app in H as [H|H]; [exact (Hs H)|].
  apply elem_of_cons in H as [->|H]; [left; reflexivity|].
  destruct (IH H) as [E|(b & Hb & Hc)]; [left; exact E|].
  right. exists b. split; [apply list_elem_of_further; exact Hb|exact Hc].
Qed.

(** [path.resolve] only rearranges: a character of the result is the
    separator, or a character of the working directory or of an argument. *)
Lemma path_resolve_chars (cwd : jsstring) (args : list jsstring) (c : N) :
  c ∈ path_resolve cwd args ->
  c = slash \/ c ∈ cwd \/ exists a, a ∈ args /\ c ∈ a.
Proof.
  unfold path_resolve. intros H.
  apply elem_of_cons in H as [->|H]; [left; reflexivity|].
  apply join_slash_chars in H as [->|(s & Hs & Hc)]; [left; reflexivity|].
  apply normalize_go_segs in Hs as [Hs|Hs]; [|inversion Hs].
  pose proof (split_chars _ _ _ _ Hs Hc) as Hin. clear Hs Hc.
  pose proof (resolve_scan_chars args c) as Hscan.
  destruct (resolve_scan args) as [r [|]]; simpl in Hscan.
  - destruct (Hscan Hin) as [E|E]; [left; exact E|right; right; exact E].
  - apply elem_of_app in Hin as [Hin|Hin]; [right; left; exact Hin|].
    apply elem_of_cons in Hin as [->|Hin]; [left; reflexivity|].
    destruct (Hscan Hin) as [E|E]; [left; exact E|right; right; exact E].
Qed.

(** ** Sanitization of the folder path *)

Lemma filenamify_core_reserved (s : jsstring) (c : N) :
  c ∈ filenamify_core s -> is_reserved c = false.
Proof.
  unfold filenamify_core. rewrite list_elem_of_In, in_map_iff.
  intros (x & <- & _). destruct (is_reserved x) eqn:E; [reflexivity|exact E].
Qed.

Section Sanitized.
Variables (cwd : jsstring) (filenamify : jsstring -> jsstring).

(** What the sanitizer relies on: the package leaves no reserved character. *)
Hypothesis filenamify_reserved :
  forall s c, c ∈ filenamify s -> is_reserved c = false.


End Sanitized.

(** The path of the specification's scenario. *)
Example resolve_scenario :
  fileDest (js "/") filenamify_core (js "/out/CourseX_42") (js "Unit 1/Readings")
    syllabus_jun = js "/out/CourseX_42/Unit_1/Readings/syllabus.pdf".
Proof. vm_compute. reflexivity. Qed.


(** ** Announcement file names *)

(** C8.  The file names of two announcements with different identifiers can
    be the same: the sanitizer is applied to [title + '_' + id] as a whole.
    It sends a blank and an underscore to the same character, and a length
    limit in the package, as in [filenamify_cut], drops the identifier that
    follows a long title. *)
Lemma announcement_filenames_collide :
  (let a := mkAnnouncement (js "1 2") (js "Notes") 0 (js "first") in
   let b := mkAnnouncement (js "1_2") (js "Notes") 0 (js "second") in
   a_id a <> a_id b /\ a_title a = a_title b /\
   announcementFilename filenamify_core a = announcementFilename filenamify_core b) /\
  (let a := mkAnnouncement (js "101") long_title 0 (js "first") in
   let b := mkAnnouncement (js "102") long_title 0 (js "second") in
   a_id a <> a_id b /\ a_title a = a_title b /\
   announcementFilename filenamify_cut a = announcementFilename filenamify_cut b).
Proof. vm_compute. repeat split; discriminate. Qed.

(** ** Failures inside a category *)

Lemma bind_ok {A B} (m : M A) (k : A -> M B) (w w1 : World) (t1 : list Event) (a : A) :
  m w = (w1, t1, Ok a) ->
  (m ≫= k) w = (world_of (k a w1), t1 ++ trace_of (k a w1), result_of (k a w1)).
Proof.
  intros H. unfold mbind, M_bind. rewrite H.
  destruct (k a w1) as [[w2 t2] r]. reflexivity.
Qed.

Lemma bind_throw {A B} (m : M A) (k : A -> M B) (w w1 : World) (t1 : list Event) (e : Err) :
  m w = (w1, t1, Throw e) -> (m ≫= k) w = (w1, t1, Throw e).
Proof. intros H. unfold mbind, M_bind. rewrite H. reflexivity. Qed.

(** A rejected iteration ends the loop: the items after it are not visited. *)
Lemma for_each_throw {A} (body : A -> M unit) (l1 l2 : list A) (x : A) :
  forall (w w1 w2 : World) (t1 t2 : list Event) (e : Err),
    for_each l1 body w = (w1, t1, Ok tt) ->
    body x w1 = (w2, t2, Throw e) ->
    for_each (l1 ++ x :: l2) body w = (w2, t1 ++ t2, Throw e).
Proof.
  induction l1 as [|y l1 IH]; intros w w1 w2 t1 t2 e H1 Hx; simpl in *.
  - injection H1 as <- <-. apply bind_throw. exact Hx.
  - unfold mbind, M_bind in *.
    destruct (body y w) as [[wy ty] [[]|ey|sy]]; [|discriminate..].
    destruct (for_each l1 body wy) as [[w' t'] r'] eqn:El.
    injection H1 as -> <- ->.
    rewrite (IH wy w1 w2 t' t2 e El Hx). rewrite app_assoc. reflexivity.
Qed.

Lemma bind_stopped {A B} (m : M A) (k : A -> M B) (w w1 : World) (t1 : list Event) (s : Stop) :
  m w = (w1, t1, Stopped s) -> (m ≫= k) w = (w1, t1, Stopped s).
Proof. intros H. unfold mbind, M_bind. rewrite H. reflexivity. Qed.

(** An iteration that does not settle ends the loop as well. *)
Lemma for_each_stopped {A} (body : A -> M unit) (l1 l2 : list A) (x : A) :
  forall (w w1 w2 : World) (t1 t2 : list Event) (s : Stop),
    for_each l1 body w = (w1, t1, Ok tt) ->
    body x w1 = (w2, t2, Stopped s) ->
    for_each (l1 ++ x :: l2) body w = (w2, t1 ++ t2, Stopped s).
Proof.
  induction l1 as [|y l1 IH]; intros w w1 w2 t1 t2 s H1 Hx; simpl in *.
  - injection H1 as <- <-. apply bind_stopped. exact Hx.
  - unfold mbind, M_bind in *.
    destruct (body y w) as [[wy ty] [[]|ey|sy]]; [|discriminate..].
    destruct (for_each l1 body wy) as [[w' t'] r'] eqn:El.
    injection H1 as -> <- ->.
    rewrite (IH wy w1 w2 t' t2 s El Hx). rewrite app_assoc. reflexivity.
Qed.

Section FilesLoop.
Variables (cwd : jsstring) (filenamify : jsstring -> jsstring).
Variable mkdirs : jsstring -> Action.
Variable getFolders : Z -> Res (option (list Folder)).
Variable getFiles : Z -> Res (option (list FileRec)).
Variable transfer : jsstring -> jsstring -> Action.

Local Abbreviation item := (downloadFile cwd filenamify mkdirs transfer).
Local Abbreviation files_of :=
  (downloadFiles cwd filenamify mkdirs getFolders getFiles transfer).

(** A transfer whose promise is rejected after the gate decided to fetch
    rejects the iteration. *)
Lemma downloadFile_transfer_rejected (folders : list Folder) (courseDir : jsstring)
    (file : FileRec) (fo : Folder) (w w1 w2 : World) (e : Err) :
  let folder := folderPath cwd filenamify courseDir (full_name fo) in
  let destPath := fileDest cwd filenamify courseDir (full_name fo) file in
  find (fun f => fo_id f =? folder_id file) folders = Some fo ->
  mkdirs folder w = (w1, Ok tt) ->
  fresh w1 destPath (modified_at file) = false ->
  transfer (url file) destPath w1 = (w2, Throw e) ->
  item folders courseDir file w = (w2, [EvMkdirs folder; EvProduce destPath], Throw e).
Proof.
  intros folder destPath Hfind Hmk Hfresh Htr.
  unfold downloadFile. rewrite Hfind. fold folder.
  change (path_resolve cwd [folder; filename file]) with destPath.
  unfold mbind, M_bind, perform. rewrite Hmk.
  rewrite (gate_fetch _ _ _ _ Hfresh), Htr. reflexivity.
Qed.

(** C5 (as amended).  In the Files category, when the promise of a transfer
    is rejected after the gate decided to fetch (the write stream reported
    an error), the rejection is not caught per item: the loop ends there,
    the records after the failing one are not visited, and [downloadFiles]
    is rejected with the reason of the transfer.  The rejection is caught
    at the call in [run], which logs it and goes on. *)
Theorem files_transfer_failure_ends_loop (c : Course) (courseDir : jsstring)
    (folders : list Folder) (files done rest : list FileRec) (file : FileRec)
    (fo : Folder) (w w0' w1 w2 : World) (t0 : list Event) (e : Err) :
  let folder := folderPath cwd filenamify courseDir (full_name fo) in
  let destPath := fileDest cwd filenamify courseDir (full_name fo) file in
  getFolders (c_id c) = Ok (Some folders) ->
  getFiles (c_id c) = Ok (Some files) ->
  uniqueFiles files = done ++ file :: rest ->
  for_each done (item folders courseDir) w = (w0', t0, Ok tt) ->
  find (fun f => fo_id f =? folder_id file) folders = Some fo ->
  mkdirs folder w0' = (w1, Ok tt) ->
  fresh w1 destPath (modified_at file) = false ->
  transfer (url file) destPath w1 = (w2, Throw e) ->
  files_of c courseDir w
    = (w2, t0 ++ [EvMkdirs folder; EvProduce destPath], Throw e) /\
  catch_console_error (files_of c courseDir) w
    = (w2, (t0 ++ [EvMkdirs folder; EvProduce destPath]) ++ [EvConsoleError e], Ok tt).
Proof.
  intros folder destPath Hfo Hfi Hu Hdone Hfind Hmk Hfresh Htr.
  assert (E : files_of c courseDir w
              = (w2, t0 ++ [EvMkdirs folder; EvProduce destPath], Throw e)).
  { pose proof (downloadFile_transfer_rejected folders courseDir file fo w0' w1 w2 e
                  Hfind Hmk Hfresh Htr) as Hitem.
    pose proof (for_each_throw _ done rest file w w0' w2 t0 _ e Hdone Hitem) as Hloop.
    unfold downloadFiles, await, mbind, M_bind. rewrite Hfo, Hfi, Hu.
    unfold mbind, M_bind in Hloop. rewrite Hloop.
    reflexivity. }
  split; [exact E|]. unfold catch_console_error. rewrite E. reflexivity.
Qed.
End FilesLoop.

Lemma files_transfer_failure_ends_loop_witness :
  let folder := js "/out/CourseX_42/Unit_1/Readings" in
  let destPath := js "/out/CourseX_42/Unit_1/Readings/a.pdf" in
  let files_of := downloadFiles (js "/") filenamify_core mkdirs_ok
                    (fun _ => Ok (Some folders_x))
                    (fun _ => Ok (Some [file_good; file_bad])) transfer_ex in
  files_of course_x dir_x w0
    = (w0, [] ++ [EvMkdirs folder; EvProduce destPath], Throw (Rejected (js "ENOSPC"))) /\
  catch_console_error (files_of course_x dir_x) w0
    = (w0, ([] ++ [EvMkdirs folder; EvProduce destPath])
             ++ [EvConsoleError (Rejected (js "ENOSPC"))], Ok tt).
Proof.
  intros folder destPath files_of.
  apply (files_transfer_failure_ends_loop (js "/") filenamify_core mkdirs_ok
           (fun _ => Ok (Some folders_x)) (fun _ => Ok (Some [file_good; file_bad]))
           transfer_ex course_x dir_x folders_x [file_good; file_bad] [] [file_good]
           file_bad (mkFolder 7 (js "Unit 1/Readings")) w0 w0 w0 w0 []
           (Rejected (js "ENOSPC")));
    vm_compute; reflexivity.
Defined.

(** C5 as stated fails: the record after the one whose transfer is rejected
    is never fetched, although it is fetched when it is listed alone. *)
Lemma files_loop_abandons_later_items :
  let files_of files :=
    downloadFiles (js "/") filenamify_core mkdirs_ok
      (fun _ => Ok (Some folders_x)) (fun _ => Ok (Some files)) transfer_ex
      course_x dir_x w0 in
  let dest_b := js "/out/CourseX_42/Unit_1/Readings/b.pdf" in
  In (EvProduce dest_b) (trace_of (files_of [file_good])) /\
  ~ In (EvProduce dest_b) (trace_of (files_of [file_good; file_bad])) /\
  disk (world_of (files_of [file_good; file_bad])) !! dest_b = None /\
  result_of (files_of [file_good; file_bad]) = Throw (Rejected (js "ENOSPC")).
Proof.
  vm_compute. repeat split.
  - right. left. reflexivity.
  - intros [H|[H|[]]]; discriminate.
Qed.

(** ** Failures of a category *)

Lemma catch_fulfilled (m : M unit) (w : World) :
  settles (result_of (m w)) -> result_of (catch_console_error m w) = Ok tt.
Proof.
  unfold catch_console_error.
  destruct (m w) as [[w1 t1] [[]|e|s]]; simpl; intros H; [reflexivity..|contradiction].
Qed.

(** After [m.catch(console.error)] the next statement runs, on the world [m]
    left, provided [m] settles. *)
Lemma catch_then {B} (m : M unit) (k : M B) (w : World) :
  settles (result_of (m w)) ->
  (catch_console_error m;; k) w =
    (world_of (k (world_of (catch_console_error m w))),
     trace_of (catch_console_error m w)
       ++ trace_of (k (world_of (catch_console_error m w))),
     result_of (k (world_of (catch_console_error m w)))).
Proof.
  unfold mbind, M_bind, catch_console_error.
  destruct (m w) as [[w1 t1] [[]|e|s]]; cbn [world_of trace_of result_of fst snd settles];
    intros H; try contradiction;
    destruct (k w1) as [[w2 t2] r]; reflexivity.
Qed.

Lemma outcome_eta {A} (o : World * list Event * Res A) :
  o = (world_of o, trace_of o, result_of o).
Proof. destruct o as [[w t] r]. reflexivity. Qed.

Section Isolation.
Variables (cwd : jsstring) (filenamify : jsstring -> jsstring).
Variable mkdirs : jsstring -> Action.
Variable getFolders : Z -> Res (option (list Folder)).
Variable getFiles : Z -> Res (option (list FileRec)).
Variable transfer : jsstring -> jsstring -> Action.
Variables dAssignments dFiles dPages dAnnouncements dModules
  : Course -> jsstring -> M unit.

Local Abbreviation cats :=
  (categories dAssignments dFiles dPages dAnnouncements dModules).
Local Abbreviation course :=
  (processCourse cwd filenamify mkdirs
     dAssignments dFiles dPages dAnnouncements dModules).

(** The five downloaders in sequence, when each of them settles. *)
Lemma categories_settling (c : Course) (dir : jsstring) (w : World) :
  settling dAssignments -> settling dFiles -> settling dPages ->
  settling dAnnouncements -> settling dModules ->
  let o1 := catch_console_error (dAssignments c dir) w in
  let o2 := catch_console_error (dFiles c dir) (world_of o1) in
  let o3 := catch_console_error (dPages c dir) (world_of o2) in
  let o4 := catch_console_error (dAnnouncements c dir) (world_of o3) in
  let o5 := catch_console_error (dModules c dir) (world_of o4) in
  cats c dir w =
    (world_of o5,
     trace_of o1 ++ trace_of o2 ++ trace_of o3 ++ trace_of o4 ++ trace_of o5,
     Ok tt).
Proof.
  intros HA HF HP HN HM o1 o2 o3 o4 o5. unfold categories.
  rewrite catch_then by apply HA. fold o1.
  rewrite catch_then by apply HF. fold o2.
  rewrite catch_then by apply HP. fold o3.
  rewrite catch_then by apply HN. fold o4. fold o5.
  cbn [world_of trace_of result_of fst snd].
  f_equal. unfold o5. apply catch_fulfilled, HM.
Qed.

End Isolation.

Lemma category_rejected_settling : settling category_rejected.
Proof. intros c dir w. exact I. Qed.

Lemma category_mark_settling (name : jsstring) : settling (category_mark name).
Proof. intros c dir w. exact I. Qed.

Lemma files_unlisted_settling : settling files_unlisted.
Proof. intros c dir w. exact I. Qed.



(** ** Validation of the options *)

(** X18.  The module-level checks reach [commanderFail] exactly when both of
    [--course] and [--all] hold a truthy value, or neither does, or one of
    [--dir], [--url], [--token] does not.  What [program.help()] then does
    with the process is the package's business. *)
Lemma complaints_iff (o : Options) :
  complaints o <> [] <->
  truthy (o_course o) = truthy_bool (o_all o) \/
  truthy (o_dir o) = false \/ truthy (o_url o) = false \/ truthy (o_token o) = false.
Proof.
  unfold complaints.
  destruct (truthy (o_course o)), (truthy_bool (o_all o)), (truthy (o_dir o)),
    (truthy (o_url o)), (truthy (o_token o)); simpl;
    split; intros H; try congruence; try tauto;
    try (destruct H as [H|[H|[H|H]]]; congruence).
Qed.

(** * Further properties of the code *)

(** ** The gate: what it leaves alone, and its late failure *)

(** X1.  The gate itself changes nothing but the time stamps of its
    destination: any other path holds what the action left there (what it
    held before, on a skip), and the content at the destination is the one
    the action left. *)
Theorem gate_frame (f : Action) (destPath : jsstring) (mtime_ : Z) (w : World)
    (q : jsstring) :
  let before := if fresh w destPath mtime_ then w else fst (f w) in
  let after := world_of (fIfNeeded f destPath mtime_ w) in
  (q <> destPath -> disk after !! q = disk before !! q) /\
  data <$> (disk after !! destPath) = data <$> (disk before !! destPath) /\
  clock after = clock before.
Proof.
  intros before after. unfold before, after.
  destruct (fresh w destPath mtime_) eqn:F.
  - rewrite (gate_skip f destPath mtime_ w F). auto.
  - rewrite (gate_fetch f destPath mtime_ w F).
    destruct (f w) as [w1 [[]|e|s]]; [|auto..].
    destruct (disk w1 !! destPath) as [fl|] eqn:E; cbn [world_of fst snd disk clock].
    + repeat split.
      * intros Hq. apply lookup_insert_ne. congruence.
      * rewrite lookup_insert_eq, E. reflexivity.
    + auto.
Qed.

(** X2.  When the action is fulfilled without leaving a file at the
    destination, the gate has already logged the write when [fs.utimes]
    fails: it is rejected with ENOENT, and the world is the one the action
    left. *)
Theorem gate_missing_artifact (f : Action) (destPath : jsstring) (mtime_ : Z)
    (w w1 : World) :
  fresh w destPath mtime_ = false ->
  f w = (w1, Ok tt) ->
  disk w1 !! destPath = None ->
  fIfNeeded f destPath mtime_ w =
    (w1, [EvProduce destPath; EvWrite destPath], Throw (ENOENT destPath)).
Proof.
  intros F Hf Hd. rewrite (gate_fetch f destPath mtime_ w F), Hf, Hd. reflexivity.
Qed.

Lemma gate_missing_artifact_witness :
  fIfNeeded (mkdirs_ok []) (js "/out/a.html") 5 w0 =
    (w0, [EvProduce (js "/out/a.html"); EvWrite (js "/out/a.html")],
     Throw (ENOENT (js "/out/a.html"))).
Proof.
  apply (gate_missing_artifact (mkdirs_ok []) (js "/out/a.html") 5 w0 w0).
  - vm_compute. reflexivity.
  - reflexivity.
  - vm_compute. reflexivity.
Defined.

(** ** The sanitizer *)

(** X3.  Whatever the [filenamify] package returns, the result of
    [santizeFilename] holds no whitespace character and is as long as what
    the package returned. *)
Theorem santizeFilename_no_space (filenamify : jsstring -> jsstring) (s : jsstring) :
  (forall c, c ∈ santizeFilename filenamify s -> is_space c = false) /\
  length (santizeFilename filenamify s) = length (filenamify s).
Proof.
  unfold santizeFilename, replace_space. split; [|apply length_map].
  intros c. rewrite list_elem_of_In, in_map_iff. intros (x & <- & _).
  destruct (is_space x) eqn:E; [reflexivity|exact E].
Qed.

(** ** Loops of gated items *)

Lemma fresh_disk (w w' : World) (p : jsstring) (t : Z) :
  disk w' !! p = disk w !! p -> fresh w' p t = fresh w p t.
Proof. unfold fresh. intros ->. reflexivity. Qed.

(** One gated item with a well-behaved action, on a filesystem that keeps
    the time of the item. *)
Lemma gate_item_ok (act : Action) (p : jsstring) (t : Z) (w : World) :
  writes_only act p ->
  stamp w t = t ->
  result_of (fIfNeeded act p t w) = Ok tt /\
  fresh (world_of (fIfNeeded act p t w)) p t = true /\
  (forall q, q <> p -> disk (world_of (fIfNeeded act p t w)) !! q = disk w !! q) /\
  stamp (world_of (fIfNeeded act p t w)) = stamp w.
Proof.
  intros WB Hs.
  destruct (fresh w p t) eqn:F.
  - rewrite (gate_skip _ _ _ w F). cbn [world_of result_of fst snd]. auto.
  - rewrite (gate_fetch _ _ _ w F).
    destruct (WB w) as (w1 & fl & -> & -> & Hother & Hst).
    cbn [world_of result_of fst snd disk stamp]. repeat split.
    + unfold fresh. cbn [disk]. rewrite lookup_insert_eq. cbn [mtime].
      rewrite Hst, Hs. apply Z.eqb_refl.
    + intros q Hq. rewrite lookup_insert_ne by congruence. apply Hother, Hq.
    + exact Hst.
Qed.

Section GateLoop.
Context {A : Type}.
Variables (act : A -> Action) (dest : A -> jsstring) (mt : A -> Z).

Local Abbreviation gated := (fun x => fIfNeeded (act x) (dest x) (mt x)).

(** When every destination is fresh the loop only logs skips. *)
Lemma gate_loop_all_fresh (l : list A) (w : World) :
  (forall x, x ∈ l -> fresh w (dest x) (mt x) = true) ->
  for_each l gated w = (w, map (fun x => EvSkip (dest x)) l, Ok tt).
Proof.
  induction l as [|x l IH]; intros H; [reflexivity|].
  change (for_each (x :: l) gated w) with ((gated x ≫= fun _ => for_each l gated) w).
  rewrite (bind_ok _ _ w w [EvSkip (dest x)] tt).
  - rewrite IH by (intros y Hy; apply H, list_elem_of_further, Hy). reflexivity.
  - apply gate_skip, H, list_elem_of_here.
Qed.

(** A first pass over distinct destinations with well-behaved actions, on a
    filesystem that keeps the times of the items, is fulfilled, leaves every
    destination fresh and touches no other path. *)
Lemma gate_loop_first_pass (l : list A) :
  NoDup (map dest l) ->
  (forall x, x ∈ l -> writes_only (act x) (dest x)) ->
  forall w,
    (forall x, x ∈ l -> stamp w (mt x) = mt x) ->
    result_of (for_each l gated w) = Ok tt /\
    (forall x, x ∈ l -> fresh (world_of (for_each l gated w)) (dest x) (mt x) = true) /\
    (forall q, q ∉ map dest l -> disk (world_of (for_each l gated w)) !! q = disk w !! q) /\
    stamp (world_of (for_each l gated w)) = stamp w.
Proof.
  induction l as [|x l IH]; intros ND WB w HS.
  - repeat split. intros x Hx. inversion Hx.
  - apply NoDup_cons in ND as [Hx ND].
    destruct (gate_item_ok (act x) (dest x) (mt x) w (WB x (list_elem_of_here _ _))
                (HS x (list_elem_of_here _ _))) as (R & F & O & S).
    destruct (IH ND (fun y Hy => WB y (list_elem_of_further _ _ _ Hy))
                (world_of (gated x w))) as (R' & F' & O' & S').
    { intros y Hy. cbv beta. rewrite S. apply HS, list_elem_of_further, Hy. }
    change (for_each (x :: l) gated w) with ((gated x ≫= fun _ => for_each l gated) w).
    rewrite (bind_ok _ _ w (world_of (gated x w)) (trace_of (gated x w)) tt)
      by (rewrite (outcome_eta (gated x w)) at 1; cbv beta; rewrite R; reflexivity).
    cbn [world_of result_of fst snd]. split; [exact R'|]. split; [|split].
    + intros y [->|Hy]%elem_of_cons.
      * erewrite fresh_disk; [exact F|]. apply O'. exact Hx.
      * apply F', Hy.
    + intros q Hq. cbn [map] in Hq. apply not_elem_of_cons in Hq as [Hq1 Hq2].
      fold (world_of (for_each l gated (world_of (gated x w)))).
      rewrite (O' q Hq2). apply O, Hq1.
    + fold (world_of (for_each l gated (world_of (gated x w)))).
      rewrite S'. exact S.
Qed.
End GateLoop.

(** ** Re-running the Announcements category *)

Section AnnouncementsRerun.
Variables (cwd : jsstring) (filenamify : jsstring -> jsstring).
Variable mkdirs : jsstring -> Action.
Variable getAnnouncements : Z -> Res (option (list Announcement)).
Variable writeFile : jsstring -> jsstring -> Action.

Local Abbreviation annDir courseDir := (path_resolve cwd [courseDir; js "announcements"]).
Local Abbreviation annDest courseDir :=
  (fun a => path_resolve cwd [annDir courseDir; announcementFilename filenamify a]).
Local Abbreviation announcements_of :=
  (downloadAnnouncements cwd filenamify mkdirs getAnnouncements writeFile).

Lemma downloadAnnouncements_unfold (c : Course) (courseDir : jsstring)
    (anns : list Announcement) (w w1 : World) :
  getAnnouncements (c_id c) = Ok (Some anns) ->
  mkdirs (annDir courseDir) w = (w1, Ok tt) ->
  let loop := for_each anns (fun a =>
                fIfNeeded (writeFile (annDest courseDir a) (a_message a))
                  (annDest courseDir a) (a_created_at a)) w1 in
  announcements_of c courseDir w =
    (world_of loop, EvMkdirs (annDir courseDir) :: trace_of loop, result_of loop).
Proof.
  intros Hl Hmk loop. unfold downloadAnnouncements, await, mbind, M_bind, perform.
  rewrite Hl, Hmk. cbv zeta. fold loop. destruct loop as [[w2 t2] r]. reflexivity.
Qed.

(** X4.  When the listing succeeds, the directory can be created, the
    announcements have distinct destinations, every write keeps its promise
    and the filesystem keeps the creation time of every announcement as it
    is given, a run of [downloadAnnouncements] is fulfilled and leaves every
    destination with the creation time of its announcement; a second run on
    the world it left writes nothing: it creates the directory again and
    logs one skip per announcement, in order. *)
Theorem announcements_second_run_skips (c : Course) (courseDir : jsstring)
    (anns : list Announcement) (w : World) :
  getAnnouncements (c_id c) = Ok (Some anns) ->
  keeps_files (mkdirs (annDir courseDir)) ->
  NoDup (map (annDest courseDir) anns) ->
  (forall a, a ∈ anns ->
     writes_only (writeFile (annDest courseDir a) (a_message a)) (annDest courseDir a)) ->
  (forall a, a ∈ anns -> stamp w (a_created_at a) = a_created_at a) ->
  let o1 := announcements_of c courseDir w in
  let o2 := announcements_of c courseDir (world_of o1) in
  result_of o1 = Ok tt /\
  (forall a, a ∈ anns ->
     mtime <$> (disk (world_of o1) !! annDest courseDir a) = Some (a_created_at a)) /\
  result_of o2 = Ok tt /\
  trace_of o2 = EvMkdirs (annDir courseDir)
                  :: map (fun a => EvSkip (annDest courseDir a)) anns /\
  disk (world_of o2) = disk (world_of o1).
Proof.
  intros Hl Hmk ND WB HS o1 o2.
  destruct (Hmk w) as (w1 & Hw1 & Hd1 & Hs1).
  pose proof (downloadAnnouncements_unfold c courseDir anns w w1 Hl Hw1) as E1.
  cbv zeta in E1.
  destruct (gate_loop_first_pass
              (fun a => writeFile (annDest courseDir a) (a_message a))
              (annDest courseDir) a_created_at anns ND WB w1) as (R1 & F1 & _).
  { intros a Ha. rewrite Hs1. apply HS, Ha. }
  assert (Ho1 : result_of o1 = Ok tt) by (unfold o1; rewrite E1; exact R1).
  assert (Hf1 : forall a, a ∈ anns ->
            fresh (world_of o1) (annDest courseDir a) (a_created_at a) = true).
  { intros a Ha. unfold o1. rewrite E1. exact (F1 a Ha). }
  destruct (Hmk (world_of o1)) as (w2 & Hw2 & Hd2 & _).
  pose proof (downloadAnnouncements_unfold c courseDir anns (world_of o1) w2 Hl Hw2) as E2.
  cbv zeta in E2.
  assert (E3 := gate_loop_all_fresh
             (fun a => writeFile (annDest courseDir a) (a_message a))
             (annDest courseDir) a_created_at anns w2).
  cbv beta in E2, E3. rewrite E3 in E2.
  2:{ intros a Ha. erewrite fresh_disk; [exact (Hf1 a Ha)|]. rewrite Hd2. reflexivity. }
  split; [exact Ho1|]. split.
  - intros a Ha. specialize (Hf1 a Ha). unfold fresh in Hf1.
    destruct (disk (world_of o1) !! annDest courseDir a) as [fl|]; [|discriminate].
    apply Z.eqb_eq in Hf1. simpl. congruence.
  - unfold o2. rewrite E2. cbn [world_of trace_of result_of fst snd].
    repeat split. exact Hd2.
Qed.
End AnnouncementsRerun.

Lemma write_now_writes_only (p d : jsstring) : writes_only (write_now p d) p.
Proof.
  intros w. eexists _, _. split; [reflexivity|]. cbn [disk stamp]. split; [|split].
  - apply lookup_insert_eq.
  - intros q Hq. apply lookup_insert_ne. congruence.
  - reflexivity.
Qed.

Lemma mkdirs_ok_keeps_files (p : jsstring) : keeps_files (mkdirs_ok p).
Proof. intros w. exists w. repeat split. Qed.

Lemma announcements_second_run_skips_witness :
  let run_ := downloadAnnouncements (js "/") filenamify_core mkdirs_ok
                (fun _ => Ok (Some [ann_1; ann_2])) write_now course_x dir_x in
  let o1 := run_ w0 in
  let o2 := run_ (world_of o1) in
  result_of o1 = Ok tt /\
  trace_of o2 =
    [EvMkdirs (js "/out/CourseX_42/announcements");
     EvSkip (js "/out/CourseX_42/announcements/Week_1_101.html");
     EvSkip (js "/out/CourseX_42/announcements/Week_1_102.html")] /\
  disk (world_of o2) = disk (world_of o1).
Proof.
  intros run_ o1 o2.
  destruct (announcements_second_run_skips (js "/") filenamify_core mkdirs_ok
              (fun _ => Ok (Some [ann_1; ann_2])) write_now course_x dir_x
              [ann_1; ann_2] w0) as (H1 & _ & _ & H4 & H5).
  - reflexivity.
  - apply mkdirs_ok_keeps_files.
  - vm_compute. apply NoDup_cons. split; [|apply NoDup_singleton].
    rewrite list_elem_of_singleton. discriminate.
  - intros a _. apply write_now_writes_only.
  - intros a _. reflexivity.
  - split; [exact H1|]. split; [|exact H5].
    unfold o2, o1, run_. rewrite H4. vm_compute. reflexivity.
Defined.

(** ** The Pages category *)

Section PagesLoop.
Variables (cwd : jsstring) (filenamify : jsstring -> jsstring).
Variable mkdirs : jsstring -> Action.
Variable writeFile : jsstring -> jsstring -> Action.
Variable getPages : Z -> Res (option (list Page)).
Variable getPage : Z -> jsstring -> Res jsstring.

Local Abbreviation pagesDirOf courseDir := (path_resolve cwd [courseDir; js "pages"]).
Local Abbreviation pages_of :=
  (downloadPages cwd filenamify mkdirs writeFile getPages getPage).
Local Abbreviation page_item c courseDir :=
  (fun page =>
     fIfNeeded
       (producePage writeFile getPage c page
          (pageDest cwd filenamify (pagesDirOf courseDir) page))
       (pageDest cwd filenamify (pagesDirOf courseDir) page) (p_updated_at page)).

(** X5.  When the request for the content of a page is rejected,
    [fs.writeFile] is not called: the world stays as the pages before it
    left it, the time of the destination is not stamped, the pages after it
    are not visited and [downloadPages] is rejected with the reason of the
    request. *)
Theorem pages_request_rejected (c : Course) (courseDir : jsstring)
    (done rest : list Page) (page : Page) (w w1 w2 : World) (t : list Event) (e : Err) :
  let dest := pageDest cwd filenamify (pagesDirOf courseDir) page in
  getPages (c_id c) = Ok (Some (done ++ page :: rest)) ->
  mkdirs (pagesDirOf courseDir) w = (w1, Ok tt) ->
  for_each done (page_item c courseDir) w1 = (w2, t, Ok tt) ->
  fresh w2 dest (p_updated_at page) = false ->
  getPage (c_id c) (p_url page) = Throw e ->
  pages_of c courseDir w =
    (w2, EvMkdirs (pagesDirOf courseDir) :: t ++ [EvProduce dest], Throw e).
Proof.
  intros dest Hl Hmk Hdone Hfresh Hreq.
  assert (Hitem : page_item c courseDir page w2 = (w2, [EvProduce dest], Throw e)).
  { cbv beta. fold dest. rewrite (gate_fetch _ _ _ _ Hfresh).
    unfold producePage. rewrite Hreq. reflexivity. }
  pose proof (for_each_throw _ done rest page w1 w2 w2 t _ e Hdone Hitem) as Hloop.
  unfold downloadPages, await, mbind, M_bind, perform. rewrite Hl, Hmk.
  cbv zeta. cbv beta in Hloop. rewrite Hloop. reflexivity.
Qed.
End PagesLoop.

Lemma pages_request_rejected_witness :
  downloadPages (js "/") filenamify_core mkdirs_ok write_now
    (fun _ => Ok (Some ([page_1] ++ page_2 :: [page_1])))
    (fun _ u => if decide (u = js "syllabus") then Ok (js "<p>hi</p>")
                else Throw (Rejected (js "404")))
    course_x dir_x w0
  = (mkWorld (<[js "/out/CourseX_42/pages/syllabus.html" :=
                 mkFile (js "<p>hi</p>") 1700000000000 3000]> ∅) 1700000000000 (fun t => t),
     EvMkdirs (js "/out/CourseX_42/pages")
       :: [EvProduce (js "/out/CourseX_42/pages/syllabus.html");
           EvWrite (js "/out/CourseX_42/pages/syllabus.html");
           EvUtimes (js "/out/CourseX_42/pages/syllabus.html") 1700000000000 3000]
       ++ [EvProduce (pageDest (js "/") filenamify_core (js "/out/CourseX_42/pages") page_2)],
     Throw (Rejected (js "404"))).
Proof.
  apply (pages_request_rejected (js "/") filenamify_core mkdirs_ok write_now
           (fun _ => Ok (Some ([page_1] ++ page_2 :: [page_1])))
           (fun _ u => if decide (u = js "syllabus") then Ok (js "<p>hi</p>")
                       else Throw (Rejected (js "404")))
           course_x dir_x [page_1] [page_1] page_2 w0 w0).
  - reflexivity.
  - reflexivity.
  - vm_compute. reflexivity.
  - vm_compute. reflexivity.
  - vm_compute. reflexivity.
Defined.

(** ** The Modules category *)

Lemma replace_space_no_space (s : jsstring) (c : N) :
  c ∈ replace_space s -> is_space c = false.
Proof.
  unfold replace_space. rewrite list_elem_of_In, in_map_iff. intros (x & <- & _).
  destruct (is_space x) eqn:E; [reflexivity|exact E].
Qed.

(** When the last argument of [path.resolve] is absolute the ones before it
    play no part. *)
Lemma path_resolve_absolute_last (cwd d p : jsstring) :
  is_absolute p = true ->
  path_resolve cwd [d; p] = path_resolve cwd [p] /\
  forall c, c ∈ path_resolve cwd [d; p] -> c = slash \/ c ∈ p.
Proof.
  intros Hp.
  assert (S1 : resolve_scan [p] = (p ++ [slash], true)).
  { destruct p as [|x p]; [discriminate|].
    change (resolve_scan [x :: p]) with ((x :: p) ++ [slash], is_absolute (x :: p)).
    rewrite Hp. reflexivity. }
  assert (S2 : resolve_scan [d; p] = (p ++ [slash], true)).
  { change (resolve_scan [d; p]) with
      (match resolve_scan [p] with
       | (r, true) => (r, true)
       | (r, false) => match d with [] => (r, false) | _ => (d ++ slash :: r, is_absolute d) end
       end).
    rewrite S1. reflexivity. }
  assert (E : path_resolve cwd [d; p] = path_resolve cwd [p]).
  { unfold path_resolve. rewrite S1, S2. reflexivity. }
  split; [exact E|]. rewrite E. intros c Hc.
  unfold path_resolve in Hc. rewrite S1 in Hc.
  apply elem_of_cons in Hc as [->|Hc]; [left; reflexivity|].
  apply join_slash_chars in Hc as [->|(s & Hs & Hc)]; [left; reflexivity|].
  apply normalize_go_segs in Hs as [Hs|Hs]; [|inversion Hs].
  pose proof (split_chars _ _ _ _ Hs Hc) as Hin.
  apply elem_of_app in Hin as [Hin|Hin]; [right; exact Hin|].
  apply list_elem_of_singleton in Hin. left. exact Hin.
Qed.

Section Modules.
Variables (cwd : jsstring) (filenamify : jsstring -> jsstring).
Variable mkdirs : jsstring -> Action.
Variable transfer : jsstring -> jsstring -> Action.
Variable getModules : Z -> Res (option (list Module)).
Variable getItems : jsstring -> Res (option (list ModuleItem)).
Variable getThing : jsstring -> Res (option Thing).

(** X6.  The directory of a module holds no whitespace character at all,
    not even one of the course root: the whole resolved path went through
    the replacement, and resolving it again against the course root ignores
    the root. *)
Theorem moduleFolder_no_space (courseDir : jsstring) (module : Module) :
  (forall c, c ∈ moduleFolder cwd filenamify courseDir module -> is_space c = false) /\
  moduleFolder cwd filenamify courseDir module =
    path_resolve cwd
      [replace_space
         (path_resolve cwd
            (courseDir :: map (santizeFilename filenamify)
                            (split slash (js "modules/" ++ m_name module))))].
Proof.
  unfold moduleFolder. cbv zeta.
  set (p := replace_space _).
  assert (Hp : is_absolute p = true) by reflexivity.
  destruct (path_resolve_absolute_last cwd courseDir p Hp) as [E Hc].
  split; [|exact E].
  intros c H. destruct (Hc c H) as [->|H']; [reflexivity|].
  exact (replace_space_no_space _ _ H').
Qed.

(** X7.  The Modules category tests none of its listings: a module listing,
    an item listing or an item descriptor that is [undefined] rejects the
    category with a TypeError (after the directory of the module was
    created, for the last two), whereas an item without a locator, or a
    descriptor without a locator or a file name, is passed over without
    effect. *)
Theorem modules_undefined_rejects (c : Course) (courseDir folder : jsstring)
    (module : Module) (item : ModuleItem) (thing : Thing) (w w1 : World) :
  (getModules (c_id c) = Ok None ->
   downloadModules cwd filenamify mkdirs transfer getModules getItems getThing c courseDir w
     = (w, [], Throw TypeError)) /\
  (mkdirs (moduleFolder cwd filenamify courseDir module) w = (w1, Ok tt) ->
   getItems (m_items_url module) = Ok None ->
   downloadModule cwd filenamify mkdirs transfer getItems getThing courseDir module w
     = (w1, [EvMkdirs (moduleFolder cwd filenamify courseDir module)], Throw TypeError)) /\
  (truthy (mi_url item) = true ->
   getThing (default [] (mi_url item)) = Ok None ->
   downloadItem cwd transfer getThing folder item w = (w, [], Throw TypeError)) /\
  (truthy (mi_url item) = false ->
   downloadItem cwd transfer getThing folder item w = (w, [], Ok tt)) /\
  (truthy (mi_url item) = true ->
   getThing (default [] (mi_url item)) = Ok (Some thing) ->
   truthy (t_url thing) = false \/ truthy (t_filename thing) = false ->
   downloadItem cwd transfer getThing folder item w = (w, [], Ok tt)).
Proof.
  repeat split.
  - intros H. unfold downloadModules, await, mbind, M_bind. rewrite H. reflexivity.
  - intros Hmk Hi. unfold downloadModule, await, mbind, M_bind, perform. cbv zeta.
    rewrite Hmk, Hi. reflexivity.
  - intros Hu Ht. unfold downloadItem, await, mbind, M_bind. rewrite Hu, Ht. reflexivity.
  - intros Hu. unfold downloadItem. rewrite Hu. reflexivity.
  - intros Hu Ht Hm. unfold downloadItem, await, mbind, M_bind. rewrite Hu, Ht. simpl.
    destruct Hm as [-> | ->]; simpl; [reflexivity|].
    destruct (truthy (t_url thing)); reflexivity.
Qed.
End Modules.

Lemma modules_undefined_rejects_witness :
  let m := mkModule (js "Week 1") (js "https://canvas/modules/1/items") in
  let item := mkModuleItem (Some (js "https://canvas/items/9")) in
  downloadModules (js "/") filenamify_core mkdirs_ok transfer_ex (fun _ => Ok None) (fun _ => Ok None) (fun _ => Ok None)
    course_x dir_x w0 = (w0, [], Throw TypeError) /\
  downloadModule (js "/") filenamify_core mkdirs_ok transfer_ex (fun _ => Ok None) (fun _ => Ok None) dir_x m w0
    = (w0, [EvMkdirs (moduleFolder (js "/") filenamify_core dir_x m)], Throw TypeError) /\
  downloadItem (js "/") transfer_ex (fun _ => Ok None) (js "/out") item w0 = (w0, [], Throw TypeError) /\
  downloadItem (js "/") transfer_ex (fun _ => Ok None) (js "/out") (mkModuleItem None) w0
    = (w0, [], Ok tt).
Proof.
  intros m item.
  destruct (modules_undefined_rejects (js "/") filenamify_core mkdirs_ok transfer_ex
              (fun _ => Ok None) (fun _ => Ok None) (fun _ => Ok None) course_x dir_x (js "/out") m item
              (mkThing None None 0) w0 w0) as (H1 & H2 & H3 & _ & _).
  destruct (modules_undefined_rejects (js "/") filenamify_core mkdirs_ok transfer_ex
              (fun _ => Ok None) (fun _ => Ok None) (fun _ => Ok None) course_x dir_x (js "/out") m (mkModuleItem None)
              (mkThing None None 0) w0 w0) as (_ & _ & _ & H4 & _).
  split; [apply H1; reflexivity|].
  split; [apply H2; reflexivity|].
  split; [apply H3; reflexivity|].
  apply H4. reflexivity.
Defined.

(** A course root with a blank: the directory of the module is not below it. *)
Example moduleFolder_scenario :
  moduleFolder (js "/") filenamify_core (js "/my out/CourseX_42") (mkModule (js "Week 1") [])
    = js "/my_out/CourseX_42/modules/Week_1".
Proof. vm_compute. reflexivity. Qed.

(** ** The deduplicated listing *)

Lemma elem_of_map_key {A K} (f : A -> K) (l : list A) (k : K) :
  k ∈ map f l <-> exists x, f x = k /\ x ∈ l.
Proof.
  rewrite list_elem_of_In, in_map_iff. split; intros (x & E & H); exists x;
    (split; [exact E|]); apply list_elem_of_In; exact H.
Qed.

Lemma uniqBy_go_elem {A} (key : A -> jsstring) (l : list A) :
  forall seen x, x ∈ uniqBy_go key seen l -> x ∈ l /\ key x ∉ seen.
Proof.
  induction l as [|y l IH]; intros seen x H; simpl in H; [inversion H|].
  destruct (decide (key y ∈ seen)) as [Hs|Hs].
  - destruct (IH _ _ H) as [H1 H2]. split; [apply list_elem_of_further, H1|exact H2].
  - apply elem_of_cons in H as [->|H]; [split; [apply list_elem_of_here|exact Hs]|].
    destruct (IH _ _ H) as [H1 H2]. apply not_elem_of_cons in H2 as [_ H2].
    split; [apply list_elem_of_further, H1|exact H2].
Qed.

Lemma uniqBy_go_NoDup {A} (key : A -> jsstring) (l : list A) :
  forall seen, NoDup (map key (uniqBy_go key seen l)).
Proof.
  induction l as [|y l IH]; intros seen; simpl; [constructor|].
  destruct (decide (key y ∈ seen)); [apply IH|].
  simpl. apply NoDup_cons. split; [|apply IH].
  intros (x & E & Hx)%elem_of_map_key.
  apply uniqBy_go_elem in Hx as [_ Hx]. apply Hx. rewrite E. apply list_elem_of_here.
Qed.

Lemma uniqBy_go_sorted {A} (R : A -> A -> Prop) (key : A -> jsstring) (l : list A) :
  StronglySorted R l -> forall seen, StronglySorted R (uniqBy_go key seen l).
Proof.
  induction 1 as [|y l Hl IH Hy]; intros seen; simpl; [constructor|].
  destruct (decide (key y ∈ seen)); [apply IH|].
  constructor; [apply IH|].
  rewrite Forall_forall in Hy |- *. intros x Hx.
  apply uniqBy_go_elem in Hx as [Hx _]. exact (Hy x Hx).
Qed.

Lemma uniqBy_go_id {A} (key : A -> jsstring) (l : list A) :
  NoDup (map key l) ->
  forall seen, (forall x, x ∈ l -> key x ∉ seen) -> uniqBy_go key seen l = l.
Proof.
  induction l as [|y l IH]; intros ND seen Hs; [reflexivity|].
  simpl in ND. apply NoDup_cons in ND as [Hy ND]. simpl.
  rewrite decide_False by (apply Hs, list_elem_of_here).
  f_equal. apply IH; [exact ND|].
  intros x Hx. apply not_elem_of_cons. split.
  - intros E. apply Hy. apply elem_of_map_key. exists x. split; [exact E|exact Hx].
  - apply Hs, list_elem_of_further, Hx.
Qed.

Lemma sort_desc_id (l : list FileRec) :
  StronglySorted newer_first l -> sort_desc l = l.
Proof.
  induction 1 as [|x l Hl IH Hx]; [reflexivity|].
  simpl. rewrite IH. destruct l as [|y l]; [reflexivity|].
  simpl. apply Forall_cons in Hx as [Hy _]. unfold newer_first in Hy.
  apply Z.leb_le in Hy. rewrite Hy. reflexivity.
Qed.

(** X8.  In the deduplicated listing no two records have the same
    destination key, every record is one of the listing, and the records
    are in order, newest first. *)
Theorem uniqueFiles_unique_sorted (files : list FileRec) :
  NoDup (map destinationKey (uniqueFiles files)) /\
  (forall r, r ∈ uniqueFiles files -> r ∈ files) /\
  StronglySorted newer_first (uniqueFiles files).
Proof.
  unfold uniqueFiles, uniqBy. repeat split.
  - assert (ND := uniqBy_go_NoDup fileKey (sort_desc files) []).
    induction (uniqBy_go fileKey [] (sort_desc files)) as [|x l IH]; [constructor|].
    simpl in *. apply NoDup_cons in ND as [Hx ND]. apply NoDup_cons.
    split; [|exact (IH ND)].
    intros (y & E & Hy)%elem_of_map_key. apply Hx, elem_of_map_key.
    exists y. split; [apply fileKey_inj, E|exact Hy].
  - intros r Hr. apply uniqBy_go_elem in Hr as [Hr _].
    rewrite sort_desc_perm in Hr. exact Hr.
  - apply uniqBy_go_sorted, sort_desc_sorted.
Qed.

(** X9.  Deduplicating a deduplicated listing changes nothing. *)
Theorem uniqueFiles_idempotent (files : list FileRec) :
  uniqueFiles (uniqueFiles files) = uniqueFiles files.
Proof.
  unfold uniqueFiles at 1. rewrite sort_desc_id.
  - unfold uniqBy. apply uniqBy_go_id.
    + apply uniqBy_go_NoDup.
    + intros x _ H. inversion H.
  - unfold uniqueFiles, uniqBy. apply uniqBy_go_sorted, sort_desc_sorted.
Qed.

(** The sort keeps records of one time in the order of the listing. *)
Lemma sort_insert_stable (t : Z) (x : FileRec) (l : list FileRec) :
  filter (fun r => modified_at r = t) (sort_insert x l) =
  filter (fun r => modified_at r = t) (x :: l).
Proof.
  induction l as [|y l IH]; [reflexivity|]. simpl.
  destruct (modified_at y <=? modified_at x) eqn:E; [reflexivity|].
  apply Z.leb_gt in E.
  destruct (decide (modified_at y = t)) as [Hy|Hy].
  - rewrite (filter_cons_True _ y) by exact Hy. rewrite IH.
    rewrite !(filter_cons_False _ x) by lia.
    rewrite (filter_cons_True _ y) by exact Hy. reflexivity.
  - rewrite (filter_cons_False _ y) by exact Hy. rewrite IH.
    destruct (decide (modified_at x = t)) as [Hx|Hx].
    + rewrite !(filter_cons_True _ x) by exact Hx.
      rewrite (filter_cons_False _ y) by exact Hy. reflexivity.
    + rewrite !(filter_cons_False _ x) by exact Hx.
      rewrite (filter_cons_False _ y) by exact Hy. reflexivity.
Qed.

Lemma sort_desc_stable (t : Z) (l : list FileRec) :
  filter (fun r => modified_at r = t) (sort_desc l) =
  filter (fun r => modified_at r = t) l.
Proof.
  induction l as [|x l IH]; [reflexivity|]. simpl.
  rewrite sort_insert_stable.
  destruct (decide (modified_at x = t)) as [Hx|Hx].
  - rewrite !(filter_cons_True _ x) by exact Hx. rewrite IH. reflexivity.
  - rewrite !(filter_cons_False _ x) by exact Hx. exact IH.
Qed.

(** X10.  Ties are broken by the order of the listing: a record that
    survives the deduplication is the first one of the listing that has its
    destination key and its modification time. *)
Theorem dedupe_tie_listing_order (files : list FileRec) (r : FileRec) :
  r ∈ uniqueFiles files ->
  head (filter (fun f => destinationKey f = destinationKey r /\
                         modified_at f = modified_at r) files) = Some r.
Proof.
  intros Hr.
  assert (Hk : r ∈ filter (fun f => fileKey f = fileKey r) (uniqueFiles files))
    by (apply list_elem_of_filter; split; [reflexivity|exact Hr]).
  unfold uniqueFiles, uniqBy in Hk. rewrite uniqBy_go_filter in Hk.
  rewrite decide_False in Hk by (intros E; inversion E).
  destruct (filter (fun f => fileKey f = fileKey r) (sort_desc files)) as [|r1 rest] eqn:Es;
    [inversion Hk|].
  simpl in Hk. apply list_elem_of_singleton in Hk. subst r1.
  assert (E : filter (fun f => modified_at f = modified_at r)
                (filter (fun f => fileKey f = fileKey r) (sort_desc files))
              = r :: filter (fun f => modified_at f = modified_at r) rest).
  { rewrite Es. apply filter_cons_True. reflexivity. }
  rewrite list_filter_filter in E.
  rewrite (list_filter_iff _ (fun f => fileKey f = fileKey r /\ modified_at f = modified_at r))
    in E by (intros f; tauto).
  rewrite <- list_filter_filter, sort_desc_stable, list_filter_filter in E.
  rewrite (list_filter_iff _ (fun f => fileKey f = fileKey r /\ modified_at f = modified_at r)).
  - rewrite E. reflexivity.
  - intros f. rewrite fileKey_inj. reflexivity.
Qed.

Lemma dedupe_tie_listing_order_witness :
  head (filter (fun f => destinationKey f = destinationKey syllabus_jun /\
                         modified_at f = modified_at syllabus_jun)
          [syllabus_jan; syllabus_jun;
           mkFileRec 7 (js "syllabus.pdf") (js "https://canvas/files/3") 1685577600000])
  = Some syllabus_jun.
Proof.
  apply (dedupe_tie_listing_order
           [syllabus_jan; syllabus_jun;
            mkFileRec 7 (js "syllabus.pdf") (js "https://canvas/files/3") 1685577600000]
           syllabus_jun).
  rewrite list_elem_of_In. vm_compute. left. reflexivity.
Defined.

(** ** Re-running the Files category *)

Section UpToDate.
Context {A : Type}.
Variables (body : A -> M unit) (dest : A -> jsstring) (mt : A -> Z).

Lemma loop_first_pass (l : list A) :
  NoDup (map dest l) ->
  (forall x, x ∈ l -> brings_up_to_date (body x) (dest x) (mt x)) ->
  forall w,
    (forall x, x ∈ l -> stamp w (mt x) = mt x) ->
    result_of (for_each l body w) = Ok tt /\
    (forall x, x ∈ l -> fresh (world_of (for_each l body w)) (dest x) (mt x) = true) /\
    stamp (world_of (for_each l body w)) = stamp w.
Proof.
  intros ND HB.
  assert (G : forall w,
    (forall x, x ∈ l -> stamp w (mt x) = mt x) ->
    result_of (for_each l body w) = Ok tt /\
    (forall x, x ∈ l -> fresh (world_of (for_each l body w)) (dest x) (mt x) = true) /\
    (forall q, q ∉ map dest l -> disk (world_of (for_each l body w)) !! q = disk w !! q) /\
    stamp (world_of (for_each l body w)) = stamp w).
  { induction l as [|x l IH]; intros w HS.
    - repeat split. intros x Hx. inversion Hx.
    - apply NoDup_cons in ND as [Hx ND].
      destruct (HB x (list_elem_of_here _ _) w (HS x (list_elem_of_here _ _)))
        as (R & F & O & S & _).
      destruct (IH ND (fun y Hy => HB y (list_elem_of_further _ _ _ Hy))
                  (world_of (body x w))) as (R' & F' & O' & S').
      { intros y Hy. rewrite S. apply HS, list_elem_of_further, Hy. }
      change (for_each (x :: l) body w) with ((body x ≫= fun _ => for_each l body) w).
      rewrite (bind_ok _ _ w (world_of (body x w)) (trace_of (body x w)) tt)
        by (rewrite (outcome_eta (body x w)) at 1; rewrite R; reflexivity).
      cbn [world_of result_of fst snd]. split; [exact R'|]. split; [|split].
      + intros y [->|Hy]%elem_of_cons.
        * erewrite fresh_disk; [exact F|]. apply O'. exact Hx.
        * apply F', Hy.
      + intros q Hq. cbn [map] in Hq. apply not_elem_of_cons in Hq as [Hq1 Hq2].
        fold (world_of (for_each l body (world_of (body x w)))).
        rewrite (O' q Hq2). apply O, Hq1.
      + fold (world_of (for_each l body (world_of (body x w)))).
        rewrite S'. exact S. }
  intros w HS. destruct (G w HS) as (R & F & _ & S). repeat split; assumption.
Qed.

Lemma loop_second_pass (l : list A) :
  (forall x, x ∈ l -> brings_up_to_date (body x) (dest x) (mt x)) ->
  forall w,
    (forall x, x ∈ l -> stamp w (mt x) = mt x) ->
    (forall x, x ∈ l -> fresh w (dest x) (mt x) = true) ->
    result_of (for_each l body w) = Ok tt /\
    count_produce (trace_of (for_each l body w)) = 0%nat /\
    disk (world_of (for_each l body w)) = disk w.
Proof.
  induction l as [|x l IH]; intros HB w HS HF; [repeat split|].
  destruct (HB x (list_elem_of_here _ _) w (HS x (list_elem_of_here _ _)))
    as (R & _ & _ & S & K).
  destruct (K (HF x (list_elem_of_here _ _))) as [C D].
  destruct (IH (fun y Hy => HB y (list_elem_of_further _ _ _ Hy)) (world_of (body x w)))
    as (R' & C' & D').
  { intros y Hy. rewrite S. apply HS, list_elem_of_further, Hy. }
  { intros y Hy. erewrite fresh_disk; [apply HF, list_elem_of_further, Hy|].
    rewrite D. reflexivity. }
  change (for_each (x :: l) body w) with ((body x ≫= fun _ => for_each l body) w).
  rewrite (bind_ok _ _ w (world_of (body x w)) (trace_of (body x w)) tt)
    by (rewrite (outcome_eta (body x w)) at 1; rewrite R; reflexivity).
  unfold count_produce, world_of, trace_of, result_of in *. cbn [fst snd].
  split; [exact R'|]. split.
  - rewrite List.filter_app, length_app, C, C'. reflexivity.
  - rewrite D', D. reflexivity.
Qed.
End UpToDate.

Section FilesRerun.
Variables (cwd : jsstring) (filenamify : jsstring -> jsstring).
Variable mkdirs : jsstring -> Action.
Variable getFolders : Z -> Res (option (list Folder)).
Variable getFiles : Z -> Res (option (list FileRec)).
Variable transfer : jsstring -> jsstring -> Action.

Local Abbreviation file_item := (downloadFile cwd filenamify mkdirs transfer).
Local Abbreviation files_run :=
  (downloadFiles cwd filenamify mkdirs getFolders getFiles transfer).
Local Abbreviation destIn := (fileDestIn cwd filenamify).

Lemma downloadFiles_listed (c : Course) (courseDir : jsstring)
    (folders : list Folder) (files : list FileRec) (w : World) :
  getFolders (c_id c) = Ok (Some folders) ->
  getFiles (c_id c) = Ok (Some files) ->
  files_run c courseDir w = for_each (uniqueFiles files) (file_item folders courseDir) w.
Proof.
  intros H1 H2. unfold downloadFiles, await, mbind, M_bind. rewrite H1, H2.
  destruct (for_each _ _ w) as [[w1 t1] r]. reflexivity.
Qed.

Lemma downloadFile_up_to_date (folders : list Folder) (courseDir : jsstring)
    (file : FileRec) :
  (forall p, keeps_files (mkdirs p)) ->
  find (fun f => fo_id f =? folder_id file) folders <> None ->
  writes_only (transfer (url file) (destIn folders courseDir file))
    (destIn folders courseDir file) ->
  brings_up_to_date (file_item folders courseDir file)
    (destIn folders courseDir file) (modified_at file).
Proof.
  intros Hmk Hfind WB w Hst. unfold fileDestIn in *. unfold downloadFile.
  destruct (find (fun f => fo_id f =? folder_id file) folders) as [fo|]; [|congruence].
  set (folder := folderPath cwd filenamify courseDir (full_name fo)).
  change (path_resolve cwd [folder; filename file])
    with (fileDest cwd filenamify courseDir (full_name fo) file).
  set (dest := fileDest cwd filenamify courseDir (full_name fo) file) in *.
  destruct (Hmk folder w) as (w1 & Ew & Dw & Sw).
  unfold mbind, M_bind, perform. rewrite Ew.
  destruct (gate_item_ok (transfer (url file) dest) dest (modified_at file) w1 WB)
    as (R & F & O & S); [rewrite Sw; exact Hst|].
  pose proof (gate_skip (transfer (url file) dest) dest (modified_at file) w1) as K.
  destruct (fIfNeeded (transfer (url file) dest) dest (modified_at file) w1)
    as [[w2 t2] r2] eqn:G.
  unfold world_of, trace_of, result_of in *. cbn [fst snd] in *.
  split; [exact R|]. split; [exact F|]. split; [|split].
  - intros q Hq. rewrite (O q Hq), Dw. reflexivity.
  - rewrite S. exact Sw.
  - intros Fw. rewrite (fresh_disk w w1) in K by (rewrite Dw; reflexivity).
    specialize (K Fw). injection K as -> -> _. split; [reflexivity|exact Dw].
Qed.

(** X11.  When both listings succeed, every record that survives the
    deduplication has its folder listed, directories can be created, the
    surviving records have distinct destinations, every transfer keeps its
    promise and the filesystem keeps the modification time of every
    surviving record as it is given, a run of [downloadFiles] is fulfilled
    and leaves every destination with the modification time of its record;
    a second run on the world it left is fulfilled, calls no transfer and
    changes no file. *)
Theorem files_second_run_skips (c : Course) (courseDir : jsstring)
    (folders : list Folder) (files : list FileRec) (w : World) :
  getFolders (c_id c) = Ok (Some folders) ->
  getFiles (c_id c) = Ok (Some files) ->
  (forall p, keeps_files (mkdirs p)) ->
  (forall file, file ∈ uniqueFiles files ->
     find (fun f => fo_id f =? folder_id file) folders <> None) ->
  NoDup (map (destIn folders courseDir) (uniqueFiles files)) ->
  (forall file, file ∈ uniqueFiles files ->
     writes_only (transfer (url file) (destIn folders courseDir file))
       (destIn folders courseDir file)) ->
  (forall file, file ∈ uniqueFiles files -> stamp w (modified_at file) = modified_at file) ->
  let o1 := files_run c courseDir w in
  let o2 := files_run c courseDir (world_of o1) in
  result_of o1 = Ok tt /\
  (forall file, file ∈ uniqueFiles files ->
     mtime <$> (disk (world_of o1) !! destIn folders courseDir file)
       = Some (modified_at file)) /\
  result_of o2 = Ok tt /\
  count_produce (trace_of o2) = 0%nat /\
  disk (world_of o2) = disk (world_of o1).
Proof.
  intros Hfo Hfi Hmk Hfind ND WB HS o1 o2.
  assert (HB : forall file, file ∈ uniqueFiles files ->
            brings_up_to_date (file_item folders courseDir file)
              (destIn folders courseDir file) (modified_at file)).
  { intros file Hf. apply downloadFile_up_to_date; auto. }
  destruct (loop_first_pass (file_item folders courseDir) (destIn folders courseDir)
              modified_at (uniqueFiles files) ND HB w HS) as (R1 & F1 & S1).
  rewrite <- (downloadFiles_listed c courseDir folders files w Hfo Hfi) in R1, F1, S1.
  destruct (loop_second_pass (file_item folders courseDir) (destIn folders courseDir)
              modified_at (uniqueFiles files) HB (world_of o1)) as (R2 & C2 & D2).
  { intros file Hf. unfold o1. rewrite S1. apply HS, Hf. }
  { exact F1. }
  rewrite <- (downloadFiles_listed c courseDir folders files _ Hfo Hfi) in R2, C2, D2.
  split; [exact R1|]. split; [|auto].
  intros file Hf. specialize (F1 file Hf). fold o1 in F1. unfold fresh in F1.
  destruct (disk (world_of o1) !! destIn folders courseDir file) as [fl|]; [|discriminate].
  apply Z.eqb_eq in F1. simpl. congruence.
Qed.

(** X12.  A surviving record whose folder is not in the folder listing
    rejects [downloadFiles] with a TypeError before any directory is created
    or any transfer started for it; the records after it are not visited. *)
Theorem files_unlisted_folder_rejects (c : Course) (courseDir : jsstring)
    (folders : list Folder) (files done rest : list FileRec) (file : FileRec)
    (w w1 : World) (t : list Event) :
  getFolders (c_id c) = Ok (Some folders) ->
  getFiles (c_id c) = Ok (Some files) ->
  uniqueFiles files = done ++ file :: rest ->
  for_each done (file_item folders courseDir) w = (w1, t, Ok tt) ->
  find (fun f => fo_id f =? folder_id file) folders = None ->
  files_run c courseDir w = (w1, t ++ [], Throw TypeError).
Proof.
  intros Hfo Hfi Hu Hdone Hfind.
  rewrite (downloadFiles_listed c courseDir folders files w Hfo Hfi), Hu.
  apply (for_each_throw _ done rest file w w1 w1 t [] TypeError Hdone).
  unfold downloadFile. rewrite Hfind. reflexivity.
Qed.
End FilesRerun.

Lemma files_second_run_skips_witness :
  let run_ := downloadFiles (js "/") filenamify_core mkdirs_ok
                (fun _ => Ok (Some folders_x))
                (fun _ => Ok (Some [file_good; syllabus_jan; syllabus_jun]))
                (fun u dest => write_now dest u) course_x dir_x in
  let o1 := run_ w0 in
  let o2 := run_ (world_of o1) in
  result_of o1 = Ok tt /\ result_of o2 = Ok tt /\
  count_produce (trace_of o2) = 0%nat /\
  disk (world_of o2) = disk (world_of o1).
Proof.
  intros run_ o1 o2.
  destruct (files_second_run_skips (js "/") filenamify_core mkdirs_ok
              (fun _ => Ok (Some folders_x))
              (fun _ => Ok (Some [file_good; syllabus_jan; syllabus_jun]))
              (fun u dest => write_now dest u) course_x dir_x folders_x
              [file_good; syllabus_jan; syllabus_jun] w0) as (H1 & _ & H3 & H4 & H5).
  - reflexivity.
  - reflexivity.
  - intros p. apply mkdirs_ok_keeps_files.
  - intros file Hf. apply list_elem_of_In in Hf. vm_compute in Hf.
    destruct Hf as [<-|[<-|[]]]; vm_compute; discriminate.
  - vm_compute. apply NoDup_cons. split; [|apply NoDup_singleton].
    rewrite list_elem_of_singleton. discriminate.
  - intros file _. apply write_now_writes_only.
  - intros file _. reflexivity.
  - repeat split; assumption.
Defined.

Lemma files_unlisted_folder_rejects_witness :
  downloadFiles (js "/") filenamify_core mkdirs_ok
    (fun _ => Ok (Some folders_x))
    (fun _ => Ok (Some [mkFileRec 8 (js "x.pdf") (js "good") 0; file_good]))
    transfer_ex course_x dir_x w0
  = (mkWorld (<[js "/out/CourseX_42/Unit_1/Readings/b.pdf" :=
                 mkFile (js "good") 1700000000000 1672531200000]> ∅) 1700000000000 (fun t => t),
     [EvMkdirs (js "/out/CourseX_42/Unit_1/Readings");
      EvProduce (js "/out/CourseX_42/Unit_1/Readings/b.pdf");
      EvWrite (js "/out/CourseX_42/Unit_1/Readings/b.pdf");
      EvUtimes (js "/out/CourseX_42/Unit_1/Readings/b.pdf") 1700000000000 1672531200000]
     ++ [],
     Throw TypeError).
Proof.
  apply (files_unlisted_folder_rejects (js "/") filenamify_core mkdirs_ok
           (fun _ => Ok (Some folders_x))
           (fun _ => Ok (Some [mkFileRec 8 (js "x.pdf") (js "good") 0; file_good]))
           transfer_ex course_x dir_x folders_x
           [mkFileRec 8 (js "x.pdf") (js "good") 0; file_good]
           [file_good] [] (mkFileRec 8 (js "x.pdf") (js "good") 0) w0).
  - reflexivity.
  - reflexivity.
  - vm_compute. reflexivity.
  - vm_compute. reflexivity.
  - vm_compute. reflexivity.
Defined.

(** ** Where the events of a sequence come from *)

Lemma for_each_trace {A} (body : A -> M unit) (l : list A) (e : Event) :
  forall w, e ∈ trace_of (for_each l body w) ->
  exists x w', x ∈ l /\ e ∈ trace_of (body x w').
Proof.
  induction l as [|x l IH]; intros w H; [inversion H|].
  change (for_each (x :: l) body w) with ((body x ≫= fun _ => for_each l body) w) in H.
  unfold mbind, M_bind in H.
  destruct (body x w) as [[w1 t1] [[]|e1|s1]] eqn:B.
  - destruct (for_each l body w1) as [[w2 t2] r2] eqn:L. cbn [trace_of fst snd] in H.
    apply elem_of_app in H as [H|H].
    + exists x, w. split; [apply list_elem_of_here|rewrite B; exact H].
    + destruct (IH w1) as (y & w' & Hy & He); [rewrite L; exact H|].
      exists y, w'. split; [apply list_elem_of_further, Hy|exact He].
  - exists x, w. split; [apply list_elem_of_here|rewrite B; exact H].
  - exists x, w. split; [apply list_elem_of_here|rewrite B; exact H].
Qed.

Lemma then_trace {B} (m : M unit) (k : M B) (w : World) (e : Event) :
  e ∈ trace_of ((m;; k) w) -> e ∈ trace_of (m w) \/ exists w', e ∈ trace_of (k w').
Proof.
  unfold mbind, M_bind.
  destruct (m w) as [[w1 t1] [[]|e1|s1]]; [|left; assumption..].
  destruct (k w1) as [[w2 t2] r2] eqn:K. cbn [trace_of fst snd].
  intros [H|H]%elem_of_app; [left; exact H|].
  right. exists w1. rewrite K. exact H.
Qed.

Lemma catch_trace (m : M unit) (w : World) (e : Event) :
  e ∈ trace_of (catch_console_error m w) ->
  e ∈ trace_of (m w) \/ exists err, e = EvConsoleError err.
Proof.
  unfold catch_console_error.
  destruct (m w) as [[w1 t1] [[]|e1|s1]]; cbn [trace_of fst snd]; [left; assumption| |left; assumption].
  intros [H|H]%elem_of_app; [left; exact H|].
  apply list_elem_of_singleton in H. right. exists e1. exact H.
Qed.

Lemma NoDup_map_eq {A B} (f : A -> B) (l : list A) (x y : A) :
  NoDup (map f l) -> x ∈ l -> y ∈ l -> f x = f y -> x = y.
Proof.
  induction l as [|z l IH]; intros ND Hx Hy E; [inversion Hx|].
  cbn [map] in ND. apply NoDup_cons in ND as [Hz ND].
  apply elem_of_cons in Hx as [->|Hx]; apply elem_of_cons in Hy as [->|Hy].
  - reflexivity.
  - exfalso. apply Hz, elem_of_map_key. exists y. split; [symmetry; exact E|exact Hy].
  - exfalso. apply Hz, elem_of_map_key. exists x. split; [exact E|exact Hx].
  - apply IH; assumption.
Qed.

(** ** The orchestrator *)

Lemma for_each_fulfilled {A} (body : A -> M unit) (l : list A) :
  (forall x w, result_of (body x w) = Ok tt) ->
  forall w, result_of (for_each l body w) = Ok tt.
Proof.
  intros HB. induction l as [|x l IH]; intros w; [reflexivity|].
  change (for_each (x :: l) body w) with ((body x ≫= fun _ => for_each l body) w).
  rewrite (bind_ok _ _ w (world_of (body x w)) (trace_of (body x w)) tt)
    by (rewrite (outcome_eta (body x w)) at 1; rewrite HB; reflexivity).
  apply IH.
Qed.

(** When no iteration is rejected every element is visited: the events of
    its iteration, on some world, are in the trace of the loop. *)
Lemma for_each_visits {A} (body : A -> M unit) (l : list A) (x : A) :
  (forall y w, result_of (body y w) = Ok tt) ->
  x ∈ l ->
  forall w, exists w', forall e, e ∈ trace_of (body x w') -> e ∈ trace_of (for_each l body w).
Proof.
  intros HB. induction l as [|y l IH]; intros Hx w; [inversion Hx|].
  change (for_each (y :: l) body w) with ((body y ≫= fun _ => for_each l body) w).
  rewrite (bind_ok _ _ w (world_of (body y w)) (trace_of (body y w)) tt)
    by (rewrite (outcome_eta (body y w)) at 1; rewrite HB; reflexivity).
  cbn [trace_of fst snd].
  apply elem_of_cons in Hx as [->|Hx].
  - exists w. intros e He. apply elem_of_app. left. exact He.
  - destruct (IH Hx (world_of (body y w))) as [w' Hw'].
    exists w'. intros e He. apply elem_of_app. right. exact (Hw' e He).
Qed.

Section RunProps.
Variables (cwd : jsstring) (filenamify : jsstring -> jsstring).
Variable mkdirs : jsstring -> Action.
Variable getCourses : Res (option (list Course)).
Variables dAssignments dFiles dPages dAnnouncements dModules
  : Course -> jsstring -> M unit.

Local Abbreviation run_ :=
  (run_with cwd filenamify mkdirs getCourses
     dAssignments dFiles dPages dAnnouncements dModules).
Local Abbreviation course_ :=
  (processCourse cwd filenamify mkdirs
     dAssignments dFiles dPages dAnnouncements dModules).
Local Abbreviation dirOf := (courseDirOf cwd filenamify).

Lemma categories_fulfilled (c : Course) (dir : jsstring) (w : World) :
  settling dAssignments -> settling dFiles -> settling dPages ->
  settling dAnnouncements -> settling dModules ->
  result_of (categories dAssignments dFiles dPages dAnnouncements dModules c dir w) = Ok tt.
Proof.
  intros HA HF HP HN HM.
  rewrite (categories_settling dAssignments dFiles dPages dAnnouncements dModules
             c dir w HA HF HP HN HM).
  reflexivity.
Qed.

Lemma processCourse_named (tf : jsstring) (c : Course) (w w1 : World) :
  settling dAssignments -> settling dFiles -> settling dPages ->
  settling dAnnouncements -> settling dModules ->
  truthy (c_name c) = true ->
  mkdirs (dirOf tf c) w = (w1, Ok tt) ->
  let oc := categories dAssignments dFiles dPages dAnnouncements dModules
              c (dirOf tf c) w1 in
  course_ tf c w =
    (world_of oc, EvCourse (c_id c) :: EvMkdirs (dirOf tf c) :: trace_of oc, Ok tt).
Proof.
  intros HA HF HP HN HM Hn Hmk oc. unfold processCourse. rewrite Hn. cbn [negb]. cbv zeta.
  unfold mbind, M_bind, emit, perform. rewrite Hmk. fold oc.
  pose proof (categories_fulfilled c (dirOf tf c) w1 HA HF HP HN HM) as R. fold oc in R.
  destruct oc as [[w2 t2] r2]. cbn in R. subst r2. reflexivity.
Qed.

(** The loop of [run], when the listing succeeds and the target directory
    can be created. *)
Lemma run_with_listed (o : Options) (courses : list Course) (w w1 : World) :
  getCourses = Ok (Some courses) ->
  mkdirs (default [] (o_dir o)) w = (w1, Ok tt) ->
  let loop := for_each (coursesToProcess (o_course o) courses)
                (course_ (default [] (o_dir o))) w1 in
  run_ o w = (world_of loop, EvMkdirs (default [] (o_dir o)) :: trace_of loop, result_of loop).
Proof.
  intros Hl Hmk loop. unfold run_with, await, mbind, M_bind, perform. rewrite Hl. cbv zeta.
  rewrite Hmk. fold loop. destruct loop as [[w2 t2] r2]. reflexivity.
Qed.

Lemma course_fulfilled (tf : jsstring) (c : Course) (w : World) :
  (forall p w', exists w1, mkdirs p w' = (w1, Ok tt)) ->
  settling dAssignments -> settling dFiles -> settling dPages ->
  settling dAnnouncements -> settling dModules ->
  result_of (course_ tf c w) = Ok tt.
Proof.
  intros Hmk HA HF HP HN HM. destruct (truthy (c_name c)) eqn:Hn.
  - destruct (Hmk (dirOf tf c) w) as [w1 Hw1].
    rewrite (processCourse_named tf c w w1 HA HF HP HN HM Hn Hw1). reflexivity.
  - unfold processCourse. rewrite Hn. reflexivity.
Qed.

(** The courses [run] visits. *)
Lemma run_visits_every_course_aux (o : Options) (courses : list Course) (w : World) :
  getCourses = Ok (Some courses) ->
  (forall p w', exists w1, mkdirs p w' = (w1, Ok tt)) ->
  settling dAssignments -> settling dFiles -> settling dPages ->
  settling dAnnouncements -> settling dModules ->
  result_of (run_ o w) = Ok tt /\
  forall c, c ∈ coursesToProcess (o_course o) courses -> truthy (c_name c) = true ->
    EvCourse (c_id c) ∈ trace_of (run_ o w) /\
    EvMkdirs (dirOf (default [] (o_dir o)) c) ∈ trace_of (run_ o w).
Proof.
  intros Hl Hmk HA HF HP HN HM.
  set (tf := default [] (o_dir o)).
  assert (HB : forall c w', result_of (course_ tf c w') = Ok tt)
    by (intros c w'; apply course_fulfilled; assumption).
  destruct (Hmk tf w) as [w1 Hw1].
  rewrite (run_with_listed o courses w w1 Hl Hw1). cbv zeta. fold tf.
  cbn [result_of trace_of fst snd]. split; [apply for_each_fulfilled, HB|].
  intros c Hc Hn.
  destruct (for_each_visits (course_ tf) _ c HB Hc w1) as [w' Hw'].
  destruct (Hmk (dirOf tf c) w') as [w'' Hw''].
  rewrite (processCourse_named tf c w' w'' HA HF HP HN HM Hn Hw'') in Hw'.
  cbn [trace_of fst snd] in Hw'.
  split; apply list_elem_of_further, Hw'.
  - apply list_elem_of_here.
  - apply list_elem_of_further, list_elem_of_here.
Qed.

(** X13.  When the course listing succeeds, directories can be created and
    each of the five category downloaders settles (is fulfilled or
    rejected), [run] is fulfilled, and every listed course that is selected
    and has a name is visited: its banner is logged and its directory
    created. *)
Theorem run_visits_every_course (o : Options) (courses : list Course) (w : World) :
  getCourses = Ok (Some courses) ->
  (forall p w', exists w1, mkdirs p w' = (w1, Ok tt)) ->
  settling dAssignments -> settling dFiles -> settling dPages ->
  settling dAnnouncements -> settling dModules ->
  result_of (run_ o w) = Ok tt /\
  forall c, c ∈ coursesToProcess (o_course o) courses -> truthy (c_name c) = true ->
    EvCourse (c_id c) ∈ trace_of (run_ o w) /\
    EvMkdirs (dirOf (default [] (o_dir o)) c) ∈ trace_of (run_ o w).
Proof. apply run_visits_every_course_aux. Qed.

(** X14.  Directory creation is not behind a catch: when the target
    directory cannot be created [run] is rejected before any course is
    looked at, and when the directory of a course cannot be created [run] is
    rejected there, none of its categories is called and the courses after
    it are not visited. *)
Theorem run_directory_failure_aborts (o : Options) (courses done rest : list Course)
    (c : Course) (w w1 w2 w3 : World) (t : list Event) (e : Err) :
  let tf := default [] (o_dir o) in
  getCourses = Ok (Some courses) ->
  (mkdirs tf w = (w1, Throw e) -> run_ o w = (w1, [EvMkdirs tf], Throw e)) /\
  (mkdirs tf w = (w1, Ok tt) ->
   coursesToProcess (o_course o) courses = done ++ c :: rest ->
   for_each done (course_ tf) w1 = (w2, t, Ok tt) ->
   truthy (c_name c) = true ->
   mkdirs (dirOf tf c) w2 = (w3, Throw e) ->
   run_ o w =
     (w3, EvMkdirs tf :: t ++ [EvCourse (c_id c); EvMkdirs (dirOf tf c)], Throw e)).
Proof.
  intros tf Hl. split.
  - intros Hmk. unfold run_with, await, mbind, M_bind, perform. rewrite Hl. cbv zeta.
    fold tf. rewrite Hmk. reflexivity.
  - intros Hmk Hsel Hdone Hn Hc.
    assert (Hitem : course_ tf c w2 =
                    (w3, [EvCourse (c_id c); EvMkdirs (dirOf tf c)], Throw e)).
    { unfold processCourse. rewrite Hn. cbn [negb]. cbv zeta.
      unfold mbind, M_bind, emit, perform. rewrite Hc. reflexivity. }
    pose proof (for_each_throw _ done rest c w1 w2 w3 t _ e Hdone Hitem) as Hloop.
    unfold run_with, await, mbind, M_bind, perform. rewrite Hl. cbv zeta. fold tf.
    rewrite Hmk, Hsel. unfold mbind, M_bind in Hloop. rewrite Hloop. reflexivity.
Qed.
Lemma categories_no_banner (c : Course) (dir : jsstring) (w : World) (id : Z) :
  no_banner dAssignments -> no_banner dFiles -> no_banner dPages ->
  no_banner dAnnouncements -> no_banner dModules ->
  EvCourse id ∉ trace_of
    (categories dAssignments dFiles dPages dAnnouncements dModules c dir w).
Proof.
  intros NA NF NP NN NM H. unfold categories in H.
  repeat match type of H with
    | _ ∈ trace_of ((_;; _) _) => apply then_trace in H as [H|[? H]]
    end;
    apply catch_trace in H as [H|[err H]]; try discriminate;
    first [exact (NA _ _ _ _ H) | exact (NF _ _ _ _ H) | exact (NP _ _ _ _ H)
          | exact (NN _ _ _ _ H) | exact (NM _ _ _ _ H)].
Qed.

Lemma processCourse_banner (tf : jsstring) (c : Course) (w : World) (id : Z) :
  no_banner dAssignments -> no_banner dFiles -> no_banner dPages ->
  no_banner dAnnouncements -> no_banner dModules ->
  EvCourse id ∈ trace_of (course_ tf c w) ->
  id = c_id c /\ truthy (c_name c) = true.
Proof.
  intros NA NF NP NN NM H. unfold processCourse in H.
  destruct (truthy (c_name c)); cbn [negb] in H.
  - split; [|reflexivity]. cbv zeta in H.
    apply then_trace in H as [H|[w1 H]].
    + apply list_elem_of_singleton in H. congruence.
    + apply then_trace in H as [H|[w2 H]].
      * unfold perform in H. destruct (mkdirs _ w1) as [w' r].
        apply list_elem_of_singleton in H. discriminate.
      * exfalso. exact (categories_no_banner _ _ _ _ NA NF NP NN NM H).
  - apply list_elem_of_singleton in H. discriminate.
Qed.

(** C10 (as amended).  With a selector that is not empty, in a run whose
    course listing succeeds, whose directories can be created and whose
    category downloaders settle, a listed course is processed (its banner
    is logged and its directory created) exactly when it has a name and its
    name or its course code is equal to the selector, as strings; a course
    without a name is only logged as skipped. *)
Theorem course_selection_exact (o : Options) (sel : jsstring) (courses : list Course)
    (w : World) :
  o_course o = Some sel -> sel <> [] ->
  getCourses = Ok (Some courses) ->
  NoDup (map c_id courses) ->
  (forall p w', exists w1, mkdirs p w' = (w1, Ok tt)) ->
  settling dAssignments -> settling dFiles -> settling dPages ->
  settling dAnnouncements -> settling dModules ->
  no_banner dAssignments -> no_banner dFiles -> no_banner dPages ->
  no_banner dAnnouncements -> no_banner dModules ->
  forall c, c ∈ courses ->
    (EvCourse (c_id c) ∈ trace_of (run_ o w) /\
     EvMkdirs (dirOf (default [] (o_dir o)) c) ∈ trace_of (run_ o w)
     <->
     truthy (c_name c) = true /\
     (c_name c = Some sel \/ c_course_code c = Some sel)) /\
    (EvCourse (c_id c) ∈ trace_of (run_ o w) ->
     truthy (c_name c) = true /\
     (c_name c = Some sel \/ c_course_code c = Some sel)) /\
    (truthy (c_name c) = false ->
     forall w', course_ (default [] (o_dir o)) c w' = (w', [EvNoName (c_id c)], Ok tt)).
Proof.
  intros Ho Hsel Hl ND Hmk HA HF HP HN HM NA NF NP NN NM c Hc.
  set (tf := default [] (o_dir o)).
  assert (Hsel' : truthy (Some sel) = true) by (destruct sel; [congruence|reflexivity]).
  assert (Hin : forall c', c' ∈ coursesToProcess (o_course o) courses <->
                  c' ∈ courses /\ (c_name c' = Some sel \/ c_course_code c' = Some sel)).
  { intros c'. unfold coursesToProcess. rewrite Ho, Hsel', list_elem_of_filter.
    rewrite orb_True, !bool_decide_spec. tauto. }
  destruct (Hmk tf w) as [w1 Hw1].
  pose proof (run_with_listed o courses w w1 Hl Hw1) as E. cbv zeta in E. fold tf in E.
  assert (Only : EvCourse (c_id c) ∈ trace_of (run_ o w) ->
                 truthy (c_name c) = true /\
                 (c_name c = Some sel \/ c_course_code c = Some sel)).
  { rewrite E. cbn [trace_of fst snd]. intros [H|H]%elem_of_cons; [discriminate|].
    apply for_each_trace in H as (c' & w' & Hc' & H).
    apply processCourse_banner in H as [Hid Hn]; try assumption.
    apply Hin in Hc' as [Hc' Hm].
    assert (c = c') by (eapply NoDup_map_eq; eassumption). subst c'. tauto. }
  split; [|split; [exact Only|]].
  - split; [intros [H _]; exact (Only H)|].
    intros [Hn Hm].
    destruct (run_visits_every_course_aux o courses w Hl Hmk HA HF HP HN HM) as [_ V].
    apply V; [apply Hin; tauto|exact Hn].
  - intros Hn w'. unfold processCourse. rewrite Hn. reflexivity.
Qed.

End RunProps.

Lemma run_visits_every_course_witness :
  let run_ := run_with (js "/") filenamify_core mkdirs_ok
                (Ok (Some [course_x; course_nameless; course_y]))
                category_rejected files_unlisted (category_mark (js "pages"))
                category_rejected category_rejected in
  result_of (run_ options_all w0) = Ok tt /\
  EvCourse 44 ∈ trace_of (run_ options_all w0) /\
  EvMkdirs (courseDirOf (js "/") filenamify_core (default [] (o_dir options_all)) course_y)
    ∈ trace_of (run_ options_all w0).
Proof.
  intros run_.
  destruct (run_visits_every_course (js "/") filenamify_core mkdirs_ok
              (Ok (Some [course_x; course_nameless; course_y]))
              category_rejected files_unlisted (category_mark (js "pages"))
              category_rejected category_rejected options_all
              [course_x; course_nameless; course_y] w0) as (H1 & H2).
  - reflexivity.
  - intros p w'. exists w'. reflexivity.
  - apply category_rejected_settling.
  - apply files_unlisted_settling.
  - apply category_mark_settling.
  - apply category_rejected_settling.
  - apply category_rejected_settling.
  - split; [exact H1|]. apply (H2 course_y); [|reflexivity].
    apply list_elem_of_In. vm_compute. right. right. left. reflexivity.
Defined.

Lemma run_directory_failure_aborts_witness :
  run_with (js "/") filenamify_core (mkdirs_deny (js "/out"))
    (Ok (Some [course_x; course_y]))
    category_rejected files_unlisted category_rejected category_rejected category_rejected
    options_all w0
  = (w0, [EvMkdirs (js "/out")], Throw (Rejected (js "EACCES"))) /\
  run_with (js "/") filenamify_core (mkdirs_deny (js "/out/CourseX_42"))
    (Ok (Some [course_x; course_y]))
    category_rejected files_unlisted category_rejected category_rejected category_rejected
    options_all w0
  = (w0,
     EvMkdirs (js "/out") :: [] ++ [EvCourse 42; EvMkdirs (js "/out/CourseX_42")],
     Throw (Rejected (js "EACCES"))).
Proof.
  split.
  - apply (proj1 (run_directory_failure_aborts (js "/") filenamify_core
                    (mkdirs_deny (js "/out")) (Ok (Some [course_x; course_y]))
                    category_rejected files_unlisted category_rejected category_rejected
                    category_rejected options_all [course_x; course_y] [] [course_y]
                    course_x w0 w0 w0 w0 [] (Rejected (js "EACCES")) eq_refl)).
    vm_compute. reflexivity.
  - apply (proj2 (run_directory_failure_aborts (js "/") filenamify_core
                    (mkdirs_deny (js "/out/CourseX_42")) (Ok (Some [course_x; course_y]))
                    category_rejected files_unlisted category_rejected category_rejected
                    category_rejected options_all [course_x; course_y] [] [course_y]
                    course_x w0 w0 w0 w0 [] (Rejected (js "EACCES")) eq_refl));
      vm_compute; reflexivity.
Defined.

Lemma category_rejected_no_banner : no_banner category_rejected.
Proof. intros c dir w id H. inversion H. Qed.

Lemma category_mark_no_banner (name : jsstring) : no_banner (category_mark name).
Proof. intros c dir w id H. apply list_elem_of_singleton in H. discriminate. Qed.

Lemma files_unlisted_no_banner : no_banner files_unlisted.
Proof. intros c dir w id H. inversion H. Qed.

Lemma course_selection_exact_witness :
  let run_ := run_with (js "/") filenamify_core mkdirs_ok
                (Ok (Some [course_x; course_nameless; course_y]))
                category_rejected files_unlisted (category_mark (js "pages"))
                category_rejected category_rejected in
  EvCourse (c_id course_x) ∈ trace_of (run_ options_cx w0) /\
  EvMkdirs (courseDirOf (js "/") filenamify_core (default [] (o_dir options_cx)) course_x)
    ∈ trace_of (run_ options_cx w0).
Proof.
  intros run_.
  destruct (course_selection_exact (js "/") filenamify_core mkdirs_ok
              (Ok (Some [course_x; course_nameless; course_y]))
              category_rejected files_unlisted (category_mark (js "pages"))
              category_rejected category_rejected options_cx (js "CX-101")
              [course_x; course_nameless; course_y] w0) with (c := course_x)
    as ((_ & H) & _ & _).
  - reflexivity.
  - discriminate.
  - reflexivity.
  - vm_compute. repeat (apply NoDup_cons; split;
      [rewrite list_elem_of_In; vm_compute; intuition discriminate|]).
    apply NoDup_nil_2.
  - intros p w'. exists w'. reflexivity.
  - apply category_rejected_settling.
  - apply files_unlisted_settling.
  - apply category_mark_settling.
  - apply category_rejected_settling.
  - apply category_rejected_settling.
  - apply category_rejected_no_banner.
  - apply files_unlisted_no_banner.
  - apply category_mark_no_banner.
  - apply category_rejected_no_banner.
  - apply category_rejected_no_banner.
  - apply list_elem_of_here.
  - apply H. split; [reflexivity|]. right. reflexivity.
Defined.

(** C10 as stated fails.  A course whose course code is equal to the
    selector but that has no name is not processed; and with the empty
    string for selector every listed course that has a name is processed,
    although neither its name nor its code is the empty string. *)
Lemma course_selection_not_exact :
  let run_ := run_with (js "/") filenamify_core mkdirs_ok
                (Ok (Some [course_x; course_nameless; course_y]))
                category_rejected files_unlisted (category_mark (js "pages"))
                category_rejected category_rejected in
  (c_course_code course_nameless = o_course options_cx /\
   ~ In (EvCourse (c_id course_nameless)) (trace_of (run_ options_cx w0))) /\
  (o_course options_blank = Some [] /\
   c_name course_y <> Some [] /\ c_course_code course_y <> Some [] /\
   In (EvCourse (c_id course_y)) (trace_of (run_ options_blank w0))).
Proof.
  vm_compute. repeat split; try discriminate.
  - intros H. repeat (destruct H as [H|H]; [discriminate|]). exact H.
  - do 8 right. left. reflexivity.
Qed.

(** The selection on a listing: the exact matches are kept, a course whose
    code differs in case is not. *)
Example selection_scenario :
  coursesToProcess (Some (js "CX-101")) [course_x; course_nameless; course_y]
    = [course_x; course_nameless].
Proof. vm_compute. reflexivity. Qed.

(** ** The shape of resolved paths *)

Lemma split_go_app (sep : N) (a b : jsstring) :
  forall cur, split_go sep (a ++ sep :: b) cur = split_go sep a cur ++ split_go sep b [].
Proof.
  induction a as [|c a IH]; intros cur; cbn [app split_go].
  - rewrite N.eqb_refl. reflexivity.
  - destruct (c =? sep)%N; [rewrite IH; reflexivity|apply IH].
Qed.

Lemma split_go_plain (sep : N) (s : jsstring) :
  sep ∉ s -> forall cur, split_go sep s cur = [rev cur ++ s].
Proof.
  induction s as [|c s IH]; intros Hs cur; cbn [split_go].
  - rewrite app_nil_r. reflexivity.
  - apply not_elem_of_cons in Hs as [Hc Hs].
    rewrite (proj2 (N.eqb_neq c sep)) by congruence.
    rewrite (IH Hs). cbn [rev]. rewrite <- app_assoc. reflexivity.
Qed.

Lemma split_go_no_sep (sep : N) (s : jsstring) :
  forall cur seg, sep ∉ cur -> seg ∈ split_go sep s cur -> sep ∉ seg.
Proof.
  induction s as [|c s IH]; intros cur seg Hcur Hseg; cbn [split_go] in Hseg.
  - apply list_elem_of_singleton in Hseg. subst seg.
    intros H. apply Hcur. apply elem_of_rev. exact H.
  - destruct (c =? sep)%N eqn:E.
    + apply elem_of_cons in Hseg as [->|Hseg].
      * intros H. apply Hcur. apply elem_of_rev. exact H.
      * apply (IH [] seg); [intros H; inversion H|exact Hseg].
    + apply N.eqb_neq in E. apply (IH (c :: cur) seg); [|exact Hseg].
      apply not_elem_of_cons. split; [congruence|exact Hcur].
Qed.

Lemma split_join (segs : list jsstring) :
  segs <> [] -> Forall (fun s => slash ∉ s) segs ->
  split slash (join_slash segs) = segs.
Proof.
  induction segs as [|s segs IH]; intros Hne Hs; [congruence|].
  apply Forall_cons in Hs as [Hs Hrest].
  destruct segs as [|s' segs].
  - simpl. unfold split. rewrite (split_go_plain _ _ Hs). reflexivity.
  - change (join_slash (s :: s' :: segs)) with (s ++ slash :: join_slash (s' :: segs)).
    unfold split. rewrite split_go_app, (split_go_plain _ _ Hs). simpl.
    f_equal. apply IH; [discriminate|exact Hrest].
Qed.

(** What the normalisation has on its stack after a prefix does not depend
    on what follows. *)
Lemma normalize_go_app (a : list jsstring) :
  forall stack, exists stack',
    forall b, normalize_go (a ++ b) stack = normalize_go b stack'.
Proof.
  induction a as [|s a IH]; intros stack.
  - exists stack. reflexivity.
  - simpl. destruct (decide (s = [] \/ s = dot)); [apply IH|].
    destruct (decide (s = dotdot)); apply IH.
Qed.

Lemma normalize_go_plain (segs : list jsstring) :
  Forall plain_segment segs ->
  forall stack, normalize_go segs stack = rev stack ++ segs.
Proof.
  induction 1 as [|s segs (_ & H1 & H2 & H3) _ IH]; intros stack; simpl.
  - rewrite app_nil_r. reflexivity.
  - rewrite decide_False by tauto. rewrite decide_False by exact H3.
    rewrite IH. simpl. rewrite <- app_assoc. reflexivity.
Qed.

Lemma normalize_go_result_plain (segs : list jsstring) :
  Forall (fun s => slash ∉ s) segs ->
  forall stack, Forall plain_segment stack ->
  Forall plain_segment (normalize_go segs stack).
Proof.
  induction 1 as [|s segs Hs _ IH]; intros stack Hst; simpl.
  - rewrite Forall_forall in Hst |- *. intros x Hx. apply Hst, elem_of_rev, Hx.
  - destruct (decide (s = [] \/ s = dot)) as [|Hd]; [apply IH, Hst|].
    destruct (decide (s = dotdot)) as [|Hdd].
    + apply IH. destruct stack; [constructor|]. apply Forall_cons in Hst as [_ Hst].
      exact Hst.
    + apply IH. constructor; [|exact Hst]. unfold plain_segment. tauto.
Qed.

Lemma split_slash_segments (s : jsstring) : Forall (fun seg => slash ∉ seg) (split slash s).
Proof.
  rewrite Forall_forall. intros seg Hseg.
  apply (split_go_no_sep slash s [] seg); [intros H; inversion H|exact Hseg].
Qed.

(** Resolving a resolved path gives it back. *)
Lemma path_resolve_idempotent (cwd : jsstring) (args : list jsstring) :
  path_resolve cwd [path_resolve cwd args] = path_resolve cwd args.
Proof.
  unfold path_resolve at 2 3.
  remember (normalize_go _ []) as n eqn:Dn.
  assert (Hn : Forall plain_segment n).
  { subst n. apply normalize_go_result_plain; [apply split_slash_segments|constructor]. }
  clear Dn.
  assert (S1 : resolve_scan [slash :: join_slash n] = ((slash :: join_slash n) ++ [slash], true)).
  { reflexivity. }
  assert (E : split slash ((slash :: join_slash n) ++ [slash])
              = [] :: (split slash (join_slash n) ++ [[]])).
  { unfold split.
    change ((slash :: join_slash n) ++ [slash])
      with ([] ++ slash :: (join_slash n ++ slash :: [])).
    rewrite !split_go_app. reflexivity. }
  unfold path_resolve. rewrite S1, E. f_equal. f_equal.
  cbn [normalize_go]. rewrite decide_True by (left; reflexivity).
  destruct n as [|s n'].
  - reflexivity.
  - rewrite split_join.
    + destruct (normalize_go_app (s :: n') []) as [st Hst].
      pose proof (Hst []) as H0. rewrite app_nil_r in H0.
      rewrite (normalize_go_plain _ Hn) in H0. cbn [rev app] in H0.
      rewrite Hst. cbn [normalize_go]. rewrite decide_True by (left; reflexivity).
      cbn [normalize_go]. symmetry. exact H0.
    + discriminate.
    + eapply Forall_impl; [exact Hn|]. intros x Hx. apply Hx.
Qed.

(** X15.  The second [path.resolve] of the folder directory (index.ts 143)
    changes nothing: the directory is the course root followed by the
    sanitized segments of the folder name, resolved once. *)
Theorem folderPath_single_resolve (cwd : jsstring) (filenamify : jsstring -> jsstring)
    (courseDir canvasFoldername : jsstring) :
  folderPath cwd filenamify courseDir canvasFoldername =
    path_resolve cwd
      (courseDir :: map (santizeFilename filenamify) (split slash canvasFoldername)).
Proof.
  unfold folderPath. cbv zeta.
  set (p := path_resolve cwd (courseDir :: map _ _)).
  destruct (path_resolve_absolute_last cwd courseDir p eq_refl) as [E _].
  rewrite E. apply path_resolve_idempotent.
Qed.

(** ** Course directories *)

Lemma pretty_N_char_digit (x : N) :
  (48 <= N_of_ascii (pretty_N_char x) <= 57)%N.
Proof. unfold pretty_N_char. repeat case_match; simpl; lia. Qed.

Lemma pretty_N_go_digits (x : N) (s : string) :
  (forall c, c ∈ js s -> (48 <= c <= 57)%N) ->
  forall c, c ∈ js (pretty_N_go x s) -> (48 <= c <= 57)%N.
Proof.
  revert s. induction (N.lt_wf_0 x) as [x _ IH]. intros s Hs.
  destruct (decide (x = 0%N)) as [->|Hx].
  - rewrite pretty_N_go_0. exact Hs.
  - rewrite pretty_N_go_step by lia. apply IH.
    + apply N.div_lt; lia.
    + simpl. intros c [->|E]%elem_of_cons; [apply pretty_N_char_digit|exact (Hs c E)].
Qed.

Lemma pretty_Z_chars (z : Z) (c : N) :
  c ∈ js (pretty z) -> c = 45%N \/ (48 <= c <= 57)%N.
Proof.
  assert (HN : forall x : N, forall d, d ∈ js (pretty x) -> (48 <= d <= 57)%N).
  { intros x d. unfold pretty, pretty_N. destruct (decide (x = 0%N)).
    - simpl. intros [->|E]%elem_of_cons; [lia|inversion E].
    - apply pretty_N_go_digits. simpl. intros d' E. inversion E. }
  destruct z as [|p|p].
  - simpl. intros [->|E]%elem_of_cons; [right; lia|inversion E].
  - intros H. right. exact (HN (Npos p) c H).
  - change (pretty (Z.neg p)) with (String "-" (pretty (Npos p))). simpl.
    intros [->|E]%elem_of_cons; [left; reflexivity|right; exact (HN (Npos p) c E)].
Qed.

Lemma join_slash_snoc_inj (m : list jsstring) (s1 s2 : jsstring) :
  join_slash (m ++ [s1]) = join_slash (m ++ [s2]) -> s1 = s2.
Proof.
  induction m as [|x m IH]; [simpl; auto|].
  assert (J : forall s, join_slash ((x :: m) ++ [s]) = x ++ slash :: join_slash (m ++ [s])).
  { intros s. simpl. destruct (m ++ [s]) eqn:E; [|reflexivity].
    destruct m; discriminate. }
  rewrite !J. intros H. apply app_inv_head in H. injection H as H. exact (IH H).
Qed.

(** A plain last argument becomes the last segment of the resolved path. *)
Lemma path_resolve_child (cwd tf : jsstring) :
  exists m, forall seg, plain_segment seg ->
    path_resolve cwd [tf; seg] = slash :: join_slash (m ++ [seg]).
Proof.
  set (pre := match tf with
              | [] => cwd
              | _ => if is_absolute tf then tf else cwd ++ slash :: tf
              end).
  destruct (normalize_go_app (split slash pre) []) as [st Hst].
  exists (rev st). intros seg (Hs & Hne & Hd & Hdd).
  assert (S1 : resolve_scan [seg] = (seg ++ [slash], false)).
  { destruct seg as [|x seg]; [congruence|].
    change (resolve_scan [x :: seg]) with ((x :: seg) ++ [slash], is_absolute (x :: seg)).
    f_equal. simpl. apply N.eqb_neq. intros ->. apply Hs, list_elem_of_here. }
  assert (S2 : (match resolve_scan [tf; seg] with
                | (r, true) => r
                | (r, false) => cwd ++ slash :: r
                end) = pre ++ slash :: (seg ++ slash :: [])).
  { change (resolve_scan [tf; seg]) with
      (match resolve_scan [seg] with
       | (r, true) => (r, true)
       | (r, false) =>
           match tf with [] => (r, false) | _ => (tf ++ slash :: r, is_absolute tf) end
       end).
    rewrite S1. unfold pre. destruct tf as [|y tf]; [reflexivity|].
    destruct (is_absolute (y :: tf)); [reflexivity|].
    rewrite <- app_assoc. reflexivity. }
  unfold path_resolve. rewrite S2. f_equal. f_equal.
  unfold split. rewrite !split_go_app, (split_go_plain _ _ Hs).
  fold (split slash pre). rewrite Hst.
  cbn [rev app split_go normalize_go].
  rewrite decide_False by tauto. rewrite decide_False by exact Hdd.
  rewrite decide_True by (left; reflexivity). reflexivity.
Qed.

Section CourseDir.
Variables (cwd : jsstring) (filenamify : jsstring -> jsstring).

(** The package leaves no separator in a name. *)
Hypothesis filenamify_no_slash : forall s, slash ∉ filenamify s.

Lemma course_segment_plain (c : Course) :
  plain_segment
    (santizeFilename filenamify (default [] (c_name c)) ++ underscore :: js (pretty (c_id c))).
Proof using filenamify_no_slash.
  assert (U : underscore ∈ santizeFilename filenamify (default [] (c_name c))
                          ++ underscore :: js (pretty (c_id c))).
  { apply elem_of_app. right. apply list_elem_of_here. }
  split; [|split; [|split]].
  - intros [H|H]%elem_of_app.
    + unfold santizeFilename, replace_space in H.
      apply elem_of_map_key in H as (x & E & Hx).
      destruct (is_space x) eqn:Sx; [discriminate|].
      subst x. exact (filenamify_no_slash _ Hx).
    + apply elem_of_cons in H as [H|H]; [discriminate|].
      apply pretty_Z_chars in H as [H|H]; [discriminate|]. unfold slash in H. lia.
  - intros E. rewrite E in U. inversion U.
  - intros E. rewrite E in U. apply list_elem_of_singleton in U. discriminate.
  - intros E. rewrite E in U. unfold dotdot in U.
    apply elem_of_cons in U as [U|U]; [discriminate|].
    apply list_elem_of_singleton in U. discriminate.
Qed.

(** X16.  Two courses with different identifiers never get the same
    directory below one target directory, whatever their names. *)
Theorem courseDirOf_distinct (targetFolder : jsstring) (c1 c2 : Course) :
  c_id c1 <> c_id c2 ->
  courseDirOf cwd filenamify targetFolder c1 <> courseDirOf cwd filenamify targetFolder c2.
Proof using filenamify_no_slash.
  intros Hne E. unfold courseDirOf in E.
  destruct (path_resolve_child cwd targetFolder) as [m Hm].
  rewrite (Hm _ (course_segment_plain c1)), (Hm _ (course_segment_plain c2)) in E.
  injection E as E. apply join_slash_snoc_inj in E.
  apply not_elem_of_app_cons_inv_r in E as (_ & _ & E).
  - apply js_inj in E. apply (inj pretty) in E. exact (Hne E).
  - intros H. apply pretty_Z_chars in H as [H|H]; [discriminate|]. unfold underscore in H. lia.
  - intros H. apply pretty_Z_chars in H as [H|H]; [discriminate|]. unfold underscore in H. lia.
Qed.
End CourseDir.

Lemma filenamify_core_no_slash (s : jsstring) : slash ∉ filenamify_core s.
Proof. intros H. apply filenamify_core_reserved in H. discriminate. Qed.

Lemma courseDirOf_distinct_witness :
  courseDirOf (js "/") filenamify_core (js "/out") (mkCourse 42 (Some (js "Algebra")) None)
  <> courseDirOf (js "/") filenamify_core (js "/out") (mkCourse 43 (Some (js "Algebra")) None).
Proof.
  apply (courseDirOf_distinct (js "/") filenamify_core filenamify_core_no_slash).
  simpl. lia.
Defined.

(** ** The directory of a folder, segment by segment *)






Section FolderSegments.
Variables (cwd : jsstring) (filenamify : jsstring -> jsstring).

(** What the sanitizer relies on: the package leaves no reserved character. *)
Hypothesis filenamify_reserved :
  forall s c, c ∈ filenamify s -> is_reserved c = false.

End FolderSegments.


(** ** What the Files category fetches *)

Lemma produced_app (t1 t2 : list Event) : produced (t1 ++ t2) = produced t1 ++ produced t2.
Proof. unfold produced. apply omap_app. Qed.

Lemma gate_produced (f : Action) (destPath : jsstring) (mtime_ : Z) (w : World) :
  produced (trace_of (fIfNeeded f destPath mtime_ w))
    = if fresh w destPath mtime_ then [] else [destPath].
Proof.
  destruct (fresh w destPath mtime_) eqn:F.
  - rewrite (gate_skip f destPath mtime_ w F). reflexivity.
  - rewrite (gate_fetch f destPath mtime_ w F).
    destruct (f w) as [w1 [[]|e|s]]; [destruct (disk w1 !! destPath)| |]; reflexivity.
Qed.

Lemma for_each_produced {A} (body : A -> M unit) (dest : A -> jsstring) (l : list A) :
  (forall x w, x ∈ l -> produced (trace_of (body x w)) `sublist_of` [dest x]) ->
  forall w, produced (trace_of (for_each l body w)) `sublist_of` map dest l.
Proof.
  induction l as [|x l IH]; intros HB w; [reflexivity|].
  change (for_each (x :: l) body w) with ((body x ≫= fun _ => for_each l body) w).
  unfold mbind, M_bind.
  pose proof (HB x w (list_elem_of_here _ _)) as Hx.
  destruct (body x w) as [[w1 t1] [[]|e1|s1]]; cbn [trace_of fst snd] in *.
  - specialize (IH (fun y w' Hy => HB y w' (list_elem_of_further _ _ _ Hy)) w1).
    destruct (for_each l body w1) as [[w2 t2] r2]. cbn [trace_of fst snd] in *.
    rewrite produced_app. change (map dest (x :: l)) with ([dest x] ++ map dest l).
    apply sublist_app; assumption.
  - change (map dest (x :: l)) with ([dest x] ++ map dest l).
    apply sublist_inserts_r. exact Hx.
  - change (map dest (x :: l)) with ([dest x] ++ map dest l).
    apply sublist_inserts_r. exact Hx.
Qed.

Lemma for_each_ext {A} (body body' : A -> M unit) (l : list A) :
  (forall x w, x ∈ l -> body' x w = body x w) ->
  forall w, for_each l body' w = for_each l body w.
Proof.
  induction l as [|x l IH]; intros HB w; [reflexivity|].
  change (for_each (x :: l) body' w) with ((body' x ≫= fun _ => for_each l body') w).
  change (for_each (x :: l) body w) with ((body x ≫= fun _ => for_each l body) w).
  unfold mbind, M_bind. rewrite (HB x w (list_elem_of_here _ _)).
  destruct (body x w) as [[w1 t1] [[]|e1|s1]]; [|reflexivity..].
  rewrite (IH (fun y w' Hy => HB y w' (list_elem_of_further _ _ _ Hy)) w1). reflexivity.
Qed.

Section FilesFetch.
Variables (cwd : jsstring) (filenamify : jsstring -> jsstring).
Variable mkdirs : jsstring -> Action.
Variable getFolders : Z -> Res (option (list Folder)).
Variable getFiles : Z -> Res (option (list FileRec)).

Lemma downloadFile_produced (transfer : jsstring -> jsstring -> Action)
    (folders : list Folder) (courseDir : jsstring) (file : FileRec) (w : World) :
  produced (trace_of (downloadFile cwd filenamify mkdirs transfer folders courseDir file w))
    `sublist_of` [fileDestIn cwd filenamify folders courseDir file].
Proof.
  unfold downloadFile, fileDestIn.
  destruct (find (fun f => fo_id f =? folder_id file) folders) as [fo|];
    [|apply sublist_nil_l].
  unfold mbind, M_bind, perform, fileDest.
  destruct (mkdirs (folderPath cwd filenamify courseDir (full_name fo)) w)
    as [w1 [[]|e|s]]; [|apply sublist_nil_l..].
  match goal with
  | |- context [fIfNeeded ?f ?p ?t w1] =>
      pose proof (gate_produced f p t w1) as G;
      destruct (fIfNeeded f p t w1) as [[w2 t2] r2]
  end.
  cbn [trace_of fst snd] in *. change (EvMkdirs ?p :: t2) with ([EvMkdirs p] ++ t2).
  rewrite produced_app, G. cbn [produced omap app].
  destruct (fresh w1 _ _); [apply sublist_nil_l|reflexivity].
Qed.

(** X17.  When both listings succeed, the transfers [downloadFiles] starts
    are, in order, transfers for records that survived the deduplication,
    at most one for each, to the destination of the record; and what
    [downloadFiles] does depends on the transport only at the locators and
    destinations of the surviving records: the locator of a superseded
    duplicate is never fetched. *)
Theorem files_fetch_only_survivors (transfer : jsstring -> jsstring -> Action)
    (c : Course) (courseDir : jsstring)
    (folders : list Folder) (files : list FileRec) (w : World) :
  getFolders (c_id c) = Ok (Some folders) ->
  getFiles (c_id c) = Ok (Some files) ->
  produced (trace_of
    (downloadFiles cwd filenamify mkdirs getFolders getFiles transfer c courseDir w))
    `sublist_of` map (fileDestIn cwd filenamify folders courseDir) (uniqueFiles files) /\
  forall transfer' : jsstring -> jsstring -> Action,
    (forall file, file ∈ uniqueFiles files ->
       transfer' (url file) (fileDestIn cwd filenamify folders courseDir file)
       = transfer (url file) (fileDestIn cwd filenamify folders courseDir file)) ->
    downloadFiles cwd filenamify mkdirs getFolders getFiles transfer' c courseDir w
    = downloadFiles cwd filenamify mkdirs getFolders getFiles transfer c courseDir w.
Proof.
  intros Hfo Hfi. split.
  - rewrite (downloadFiles_listed cwd filenamify mkdirs getFolders getFiles transfer
               c courseDir folders files w Hfo Hfi).
    apply for_each_produced. intros file w' _. apply downloadFile_produced.
  - intros transfer' Heq.
    rewrite !(downloadFiles_listed cwd filenamify mkdirs getFolders getFiles _
                c courseDir folders files w Hfo Hfi).
    apply for_each_ext. intros file w' Hf. specialize (Heq file Hf).
    unfold downloadFile. unfold fileDestIn, fileDest in Heq.
    destruct (find (fun f => fo_id f =? folder_id file) folders) as [fo|]; [|reflexivity].
    rewrite Heq. reflexivity.
Qed.
End FilesFetch.

Lemma files_fetch_only_survivors_witness :
  let fast : jsstring -> jsstring -> Action := fun u dest => write_now dest u in
  let picky : jsstring -> jsstring -> Action :=
    fun u dest => if decide (u = url syllabus_jan) then hanging else write_now dest u in
  downloadFiles (js "/") filenamify_core mkdirs_ok
    (fun _ => Ok (Some folders_x)) (fun _ => Ok (Some [syllabus_jan; syllabus_jun]))
    picky course_x dir_x w0
  = downloadFiles (js "/") filenamify_core mkdirs_ok
      (fun _ => Ok (Some folders_x)) (fun _ => Ok (Some [syllabus_jan; syllabus_jun]))
      fast course_x dir_x w0.
Proof.
  intros fast picky.
  apply (proj2 (files_fetch_only_survivors (js "/") filenamify_core mkdirs_ok
                  (fun _ => Ok (Some folders_x))
                  (fun _ => Ok (Some [syllabus_jan; syllabus_jun]))
                  fast course_x dir_x folders_x [syllabus_jan; syllabus_jun] w0
                  eq_refl eq_refl)).
  intros file Hf. apply list_elem_of_In in Hf. vm_compute in Hf.
  destruct Hf as [<-|[]]. reflexivity.
Defined.

(** ** Instances *)

Lemma gate_frame_witness :
  let p := js "/out/a.html" in
  let q := js "/out/b.html" in
  let w := fst (write_now q (js "y") w0) in
  disk (world_of (fIfNeeded (write_now p (js "x")) p 5 w)) !! q
    = disk (fst (write_now p (js "x") w)) !! q.
Proof.
  intros p q w.
  destruct (gate_frame (write_now p (js "x")) p 5 w q) as (H & _ & _).
  apply H. vm_compute. discriminate.
Defined.

Lemma santizeFilename_no_space_witness :
  underscore ∈ santizeFilename filenamify_core (js "office hours") /\
  is_space underscore = false.
Proof.
  assert (H : underscore ∈ santizeFilename filenamify_core (js "office hours")).
  { apply list_elem_of_In. vm_compute. tauto. }
  split; [exact H|].
  exact (proj1 (santizeFilename_no_space filenamify_core (js "office hours")) underscore H).
Defined.

Lemma moduleFolder_no_space_witness :
  underscore ∈ moduleFolder (js "/") filenamify_core (js "/my out/CourseX_42")
                 (mkModule (js "Week 1") []) /\
  is_space underscore = false.
Proof.
  assert (H : underscore ∈ moduleFolder (js "/") filenamify_core (js "/my out/CourseX_42")
                             (mkModule (js "Week 1") [])).
  { apply list_elem_of_In. vm_compute. tauto. }
  split; [exact H|].
  exact (proj1 (moduleFolder_no_space (js "/") filenamify_core (js "/my out/CourseX_42")
                  (mkModule (js "Week 1") [])) underscore H).
Defined.

Lemma uniqueFiles_unique_sorted_witness :
  syllabus_jun ∈ uniqueFiles [syllabus_jan; syllabus_jun] /\
  syllabus_jun ∈ [syllabus_jan; syllabus_jun].
Proof.
  assert (H : syllabus_jun ∈ uniqueFiles [syllabus_jan; syllabus_jun]).
  { apply list_elem_of_In. vm_compute. left. reflexivity. }
  split; [exact H|].
  destruct (uniqueFiles_unique_sorted [syllabus_jan; syllabus_jun]) as (_ & H2 & _).
  exact (H2 syllabus_jun H).
Defined.
